(** * laravel-mix: component registrar, build-group stack, lifecycle and manifest

    A shallow embedding of [src/components/ComponentRegistrar.js] and of the
    [Manifest] and [Mix] classes, with the properties of the orchestration
    core stated over it.

    JavaScript objects that are shared and mutated (components, the API
    surface, the dispatcher, the build-group stack) live in one [State]
    record; every method is a function in a state-and-exception monad.
    User-supplied functions (component hooks, the configuration callback)
    are arbitrary: they are interpreted by a parameter of the development.
    Asynchronous methods are taken in program order: an awaited call runs
    to its end before the caller goes on, and the calls under a
    [Promise.all] are taken one after the other, in the order of the
    array. *)

From Stdlib Require Import String Ascii List ZArith Bool Lia Sorting.Sorted.
From stdpp Require Import base strings gmap list.

Local Open Scope string_scope.
Local Open Scope list_scope.
Local Arguments String.append !_ _ / : simpl nomatch.

(** ** JavaScript string helpers *)

Definition backslash : ascii := Ascii.ascii_of_nat 92.

(** [s.startsWith(p)] *)
Definition startsWith (s p : string) : bool := String.prefix p s.

(** [s.substring(n)] *)
Fixpoint substring_from (n : nat) (s : string) : string :=
  match n, s with
  | O, _ => s
  | S n', String _ r => substring_from n' r
  | S _, EmptyString => EmptyString
  end.

(** [s.replace(/\\/g, '/')] *)
Fixpoint replace_backslashes (s : string) : string :=
  match s with
  | EmptyString => EmptyString
  | String c r =>
      String (if Ascii.eqb c backslash then "/"%char else c) (replace_backslashes r)
  end.

(** The regular-expression class [\w]. *)
Definition is_word (c : ascii) : bool :=
  let n := nat_of_ascii c in
  (((48 <=? n) && (n <=? 57)) || ((65 <=? n) && (n <=? 90))
   || ((97 <=? n) && (n <=? 122)) || (n =? 95))%nat.

(** [\w{n}] anchored at the start of [s]. *)
Fixpoint word_run (n : nat) (s : string) : bool :=
  match n with
  | O => true
  | S n' =>
      match s with
      | String c r => is_word c && word_run n' r
      | EmptyString => false
      end
  end.

(** [/\?id=\w{20}/] anchored at the start of [s]. *)
Definition id_suffix_here (s : string) : bool :=
  startsWith s "?id=" && word_run 20 (substring_from 4 s).

(** [s.replace(/\?id=\w{20}/, '')]: the first match only. *)
Fixpoint strip_id (s : string) : string :=
  if id_suffix_here s then substring_from 24 s
  else match s with
       | EmptyString => EmptyString
       | String c r => String c (strip_id r)
       end.

(** [s.includes(sub)], that is [s.indexOf(sub) !== -1]. *)
Fixpoint includes (s sub : string) : bool :=
  if startsWith s sub then true
  else match s with
       | EmptyString => false
       | String _ r => includes r sub
       end.

(** ** [path.posix] of the Node.js runtime *)

Module PosixPath.

(** The segments between the separators of a path. *)
Fixpoint segments (s : string) : list string :=
  match s with
  | EmptyString => [EmptyString]
  | String c r =>
      if Ascii.eqb c "/"%char then EmptyString :: segments r
      else match segments r with
           | seg :: rest => String c seg :: rest
           | [] => [String c EmptyString]
           end
  end.

(** [normalizeString]: drop empty and [.] segments, resolve [..].
    [acc] holds the kept segments, last one first. *)
Fixpoint normalizeSegments (allowAboveRoot : bool) (acc segs : list string)
  : list string :=
  match segs with
  | [] => rev acc
  | seg :: rest =>
      if String.eqb seg "" || String.eqb seg "." then
        normalizeSegments allowAboveRoot acc rest
      else if String.eqb seg ".." then
        match acc with
        | top :: below =>
            if String.eqb top ".." then
              normalizeSegments allowAboveRoot
                (if allowAboveRoot then ".." :: acc else acc) rest
            else normalizeSegments allowAboveRoot below rest
        | [] =>
            normalizeSegments allowAboveRoot
              (if allowAboveRoot then [".."] else []) rest
        end
      else normalizeSegments allowAboveRoot (seg :: acc) rest
  end.

(** The last character of a string, [s.charCodeAt(s.length - 1)]. *)
Fixpoint last_char (s : string) : option ascii :=
  match s with
  | EmptyString => None
  | String c r =>
      match r with
      | EmptyString => Some c
      | String _ _ => last_char r
      end
  end.

Definition last_char_is_slash (s : string) : bool :=
  match last_char s with
  | Some c => Ascii.eqb c "/"%char
  | None => false
  end.

(** [path.posix.normalize] *)
Definition normalize (p : string) : string :=
  if String.eqb p "" then "."
  else
    let isAbsolute := startsWith p "/" in
    let trailingSeparator := last_char_is_slash p in
    let body :=
      String.concat "/" (normalizeSegments (negb isAbsolute) [] (segments p)) in
    if String.eqb body "" then
      if isAbsolute then "/" else if trailingSeparator then "./" else "."
    else
      let body := if trailingSeparator then body +:+ "/" else body in
      if isAbsolute then "/" +:+ body else body.

(** The loop of [path.posix.join]: [None] is a non-string argument
    ([undefined]), on which [validateString] throws. *)
Fixpoint join_args (joined : option string) (args : list (option string))
  : option (option string) :=
  match args with
  | [] => Some joined
  | None :: _ => None
  | Some arg :: rest =>
      if String.eqb arg "" then join_args joined rest
      else
        match joined with
        | None => join_args (Some arg) rest
        | Some j => join_args (Some (j +:+ "/" +:+ arg)) rest
        end
  end.

(** [path.posix.join(...args)]; [None] stands for the [TypeError]. *)
Definition join (args : list (option string)) : option string :=
  match join_args None args with
  | None => None
  | Some None => Some "."
  | Some (Some joined) => Some (normalize joined)
  end.

End PosixPath.

(** ** Manifest *)

Module Manifest.

(** Failures of a manifest call. *)
Inductive error :=
| TypeError_path_undefined   (* path.posix.join on a missing entry *)
| FileUnreadable (p : string).

(** [this.manifest]: a JS object used as a map. Its keys start with a
    slash, so they are kept in insertion order, and assigning to an
    existing key keeps its place. *)
Record t := { manifest : list (string * string); name : string }.

(** [new Manifest(name = 'mix-manifest.json')] *)
Definition create (name : option string) : t :=
  {| manifest := []; name := default "mix-manifest.json" name |}.

Fixpoint entry (k : string) (m : list (string * string)) : option string :=
  match m with
  | [] => None
  | (k', v) :: r => if String.eqb k' k then Some v else entry k r
  end.

Fixpoint assign (k v : string) (m : list (string * string))
  : list (string * string) :=
  match m with
  | [] => [(k, v)]
  | (k', v') :: r =>
      if String.eqb k' k then (k, v) :: r else (k', v') :: assign k v r
  end.

(** [Array.prototype.sort] with a comparator (stable). *)
Fixpoint sort_insert (cmp : string -> string -> Z) (x : string * string)
    (l : list (string * string)) : list (string * string) :=
  match l with
  | [] => [x]
  | y :: r =>
      if (cmp x.1 y.1 <=? 0)%Z then x :: l else y :: sort_insert cmp x r
  end.

Definition sort_entries (cmp : string -> string -> Z)
    (l : list (string * string)) : list (string * string) :=
  fold_right (sort_insert cmp) [] l.

Section WithHost.

(** [global.Mix.config.publicPath] *)
Variable publicPath : string.

(** The file system as [File] reads it: the content of the file at a
    path, if it can be read. *)
Variable read_file : string -> option string.

(** Modelled from the spec: the content hash taken by [File.version]
    ([./File] is not part of the sources): "a 20-character content
    hash". *)
Variable hash20 : string -> string.

(** [String.prototype.localeCompare] of the host. *)
Variable localeCompare : string -> string -> Z.

(** Modelled from the spec: [new File(p).version()], the 20-character
    hash of the content of the file at [p]; reading a missing file
    throws. *)
Definition File_version (p : string) : error + string :=
  match read_file p with
  | Some content => inr (hash20 content)
  | None => inl (FileUnreadable p)
  end.

Definition normalizePath (filePath : string) : string :=
  let filePath :=
    if negb (String.eqb publicPath "") && startsWith filePath publicPath
    then substring_from (String.length publicPath) filePath
    else filePath in
  let filePath := replace_backslashes filePath in
  if negb (startsWith filePath "/") then "/" +:+ filePath else filePath.

Inductive get_result :=
| Served (p : string)
| Entries (l : list (string * string)).

(** [get(file = null)]; a falsy [file] ([null], [undefined] or the empty
    string) selects the whole-manifest branch. *)
Definition get (file : option string) (m : t) : error + get_result :=
  match file with
  | Some f =>
      if String.eqb f "" then
        inr (Entries (sort_entries localeCompare (manifest m)))
      else
        match PosixPath.join
                [Some publicPath; entry (normalizePath f) (manifest m)] with
        | Some p => inr (Served p)
        | None => inl TypeError_path_undefined
        end
  | None => inr (Entries (sort_entries localeCompare (manifest m)))
  end.

Definition add (filePath : string) (m : t) : t :=
  let filePath := normalizePath filePath in
  let original := strip_id filePath in
  {| manifest := assign original filePath (manifest m); name := name m |}.

(** [path.join] is taken to be the POSIX one. *)
Definition hash (file : string) (m : t) : error + t :=
  match PosixPath.join [Some publicPath; Some file] with
  | None => inl TypeError_path_undefined
  | Some p =>
      match File_version p with
      | inl e => inl e
      | inr h =>
          let filePath := normalizePath file in
          inr {| manifest := assign filePath (filePath +:+ "?id=" +:+ h) (manifest m);
                 name := name m |}
      end
  end.

(** [path()]; [path.join] is taken to be the POSIX one. *)
Definition path (m : t) : option string :=
  PosixPath.join [Some publicPath; Some (name m)].

(** The assets of a chunk in [stats.assetsByChunkName]: one name or an
    array of names. *)
Inductive chunk_assets :=
| OneAsset (asset : string)
| ManyAssets (assets : list string).

(** [collect(v).all()] for such a value, and its truthiness. *)
Definition asset_list (v : chunk_assets) : list string :=
  match v with
  | OneAsset asset => [asset]
  | ManyAssets assets => assets
  end.

Definition chunk_truthy (v : chunk_assets) : bool :=
  match v with
  | OneAsset asset => negb (String.eqb asset "")
  | ManyAssets _ => true
  end.

(** [flattenAssets(stats)]. [stats.assetsByChunkName] is given by its
    entries in the order of [Object.keys]. Of collect.js: [except] on an
    array drops the items equal to its argument, [flatten] on an object of
    strings and arrays of strings concatenates the values in key order,
    [filter] keeps the items the callback accepts. *)
Definition flattenAssets (assetsByChunkName : list (string * chunk_assets))
  : list string :=
  let assets :=
    map (fun chunk : string * chunk_assets =>
           if String.eqb chunk.1 "mix" && chunk_truthy chunk.2
           then (chunk.1,
                 ManyAssets (filter (fun asset => negb (String.eqb asset "mix.js"))
                               (asset_list chunk.2)))
           else chunk)
        assetsByChunkName in
  filter (fun name => negb (includes name "hot-update"))
         (concat (map (fun chunk : string * chunk_assets => asset_list chunk.2) assets)).

(** [transform(stats)] *)
Definition transform (assetsByChunkName : list (string * chunk_assets)) (m : t) : t :=
  fold_left (fun acc asset => add asset acc) (flattenAssets assetsByChunkName) m.

End WithHost.

End Manifest.

(** ** Values and objects of the orchestration core *)

(** A user-supplied function (a component hook, a callback of the mix
    config): opaque, named by a reference. *)
Definition Fn := nat.

Inductive Value :=
| VUndefined
| VBool (b : bool)
| VNum (n : Z)
| VStr (s : string)
| VArray (r : nat)            (* an array object *)
| VObject (c : nat)           (* a component object *)
| VFunction (f : Fn)
| VApi                        (* the object [ComponentRegistrar.components] *)
| VMix                        (* the [Mix] instance *)
| VError (msg : string)
| VProcessExit.               (* the host process was terminated *)

Definition Value_eqb (a b : Value) : bool :=
  match a, b with
  | VUndefined, VUndefined | VApi, VApi | VMix, VMix
  | VProcessExit, VProcessExit => true
  | VBool x, VBool y => Bool.eqb x y
  | VNum x, VNum y => (x =? y)%Z
  | VStr x, VStr y | VError x, VError y => String.eqb x y
  | VArray x, VArray y | VObject x, VObject y | VFunction x, VFunction y =>
      (x =? y)%nat
  | _, _ => false
  end.

(** JavaScript truthiness, as [&&] and [if] test it. *)
Definition truthy (v : Value) : bool :=
  match v with
  | VUndefined => false
  | VBool b => b
  | VNum n => negb (n =? 0)%Z
  | VStr s => negb (String.eqb s "")
  | _ => true
  end.

Module Component.

(** Where the aliases of a component come from: its [name()] accessor,
    returning one string or an array of strings, or else the name of its
    constructor. *)
Inductive naming :=
| NameString (alias : string)
| NameArray (aliases : list string)
| ConstructorName (ctor : string).

(** A component object: the properties the registrar reads and writes.
    An absent hook is [None]; a falsy flag is [false]. *)
Record t := {
  name : naming;
  passive : bool;
  activated : bool;
  caller : option string;
  requiresReload : bool;
  register : option Fn;
  mix : option (list (string * Fn));   (* [mix()]: extra API methods *)
  dependencies : option Fn;
  boot : option Fn;
  babelConfig : option Fn;
  webpackEntry : option Fn;
  webpackRules : option Fn;
  webpackPlugins : option Fn;
  webpackConfig : option Fn
}.

Definition set_caller (v : option string) (c : t) : t :=
  {| name := name c; passive := passive c; activated := activated c; caller := v;
     requiresReload := requiresReload c; register := register c; mix := mix c;
     dependencies := dependencies c; boot := boot c; babelConfig := babelConfig c;
     webpackEntry := webpackEntry c; webpackRules := webpackRules c;
     webpackPlugins := webpackPlugins c; webpackConfig := webpackConfig c |}.

Definition set_activated (v : bool) (c : t) : t :=
  {| name := name c; passive := passive c; activated := v; caller := caller c;
     requiresReload := requiresReload c; register := register c; mix := mix c;
     dependencies := dependencies c; boot := boot c; babelConfig := babelConfig c;
     webpackEntry := webpackEntry c; webpackRules := webpackRules c;
     webpackPlugins := webpackPlugins c; webpackConfig := webpackConfig c |}.

End Component.

(** What an alias of the API surface is bound to. *)
Inductive Method :=
| Composite (name : string) (component : nat)   (* the closure built by [register] *)
| Direct (f : Fn).                              (* a method taken from [mix()] *)

(** The closures handed to [Mix.listen]. *)
Inductive Handler :=
| OnGatherDependencies (component : nat)
| OnInit (component : nat)
| OnLoadingEntry (component : nat)
| OnLoadingRules (component : nat)
| OnLoadingPlugins (component : nat)
| OnConfigReady (component : nat)
| OnInitHotRecord
| UserHandler (f : Fn).

(** A build group (scope): its name and its callback; the root group's
    callback does nothing. *)
Record BuildGroup := { group_name : string; group_callback : option Fn }.

Inductive Effect :=
| ConsoleWarn (msg : string)
| DotenvConfig
| HotRecord
| InstallQueued (packages : list (Value * bool))
| Trace (f : Fn) (this : Value) (args : list Value).   (* left by user code *)

Record State := {
  objects : nat -> Component.t;       (* the component objects, by reference *)
  next_object : nat;                  (* the next fresh reference *)
  arrays : nat -> list Value;         (* the array objects, by reference *)
  api : gmap string Method;           (* ComponentRegistrar.components, the API surface *)
  recorded : gmap string nat;         (* Mix.components, filled by record *)
  events : list (string * Handler);   (* the dispatcher's handlers, in registration order *)
  current : list BuildGroup;          (* Mix.#current, top of the stack last *)
  groups : list BuildGroup;           (* Mix.groups, in declaration order *)
  booted : bool;                      (* Mix.booted *)
  initialized : bool;                 (* Mix.initialized *)
  publicPath : string;                (* Mix.config.publicPath *)
  babelConfig : Value;                (* Mix.config.babelConfig *)
  global_Mix : bool;                  (* global.Mix and global.webpackConfig are assigned *)
  global_group : option BuildGroup;   (* the group whose context makeCurrent published *)
  queue : list (Value * bool);        (* the queue of Dependencies *)
  module_cache : option (option Value);               (* the mix config in the module cache: evaluated, or failed *)
  effects : list Effect               (* calls to the outside, oldest first *)
}.

Definition set_objects (v : nat -> Component.t) (s : State) : State :=
  {| objects := v; next_object := next_object s; arrays := arrays s; api := api s;
     recorded := recorded s; events := events s; current := current s;
     groups := groups s; booted := booted s; initialized := initialized s;
     publicPath := publicPath s; babelConfig := babelConfig s;
     global_Mix := global_Mix s; global_group := global_group s; queue := queue s;
     module_cache := module_cache s; effects := effects s |}.

Definition set_next_object (v : nat) (s : State) : State :=
  {| objects := objects s; next_object := v; arrays := arrays s; api := api s;
     recorded := recorded s; events := events s; current := current s;
     groups := groups s; booted := booted s; initialized := initialized s;
     publicPath := publicPath s; babelConfig := babelConfig s;
     global_Mix := global_Mix s; global_group := global_group s; queue := queue s;
     module_cache := module_cache s; effects := effects s |}.

Definition set_arrays (v : nat -> list Value) (s : State) : State :=
  {| objects := objects s; next_object := next_object s; arrays := v; api := api s;
     recorded := recorded s; events := events s; current := current s;
     groups := groups s; booted := booted s; initialized := initialized s;
     publicPath := publicPath s; babelConfig := babelConfig s;
     global_Mix := global_Mix s; global_group := global_group s; queue := queue s;
     module_cache := module_cache s; effects := effects s |}.

Definition set_api (v : gmap string Method) (s : State) : State :=
  {| objects := objects s; next_object := next_object s; arrays := arrays s;
     api := v; recorded := recorded s; events := events s; current := current s;
     groups := groups s; booted := booted s; initialized := initialized s;
     publicPath := publicPath s; babelConfig := babelConfig s;
     global_Mix := global_Mix s; global_group := global_group s; queue := queue s;
     module_cache := module_cache s; effects := effects s |}.

Definition set_recorded (v : gmap string nat) (s : State) : State :=
  {| objects := objects s; next_object := next_object s; arrays := arrays s;
     api := api s; recorded := v; events := events s; current := current s;
     groups := groups s; booted := booted s; initialized := initialized s;
     publicPath := publicPath s; babelConfig := babelConfig s;
     global_Mix := global_Mix s; global_group := global_group s; queue := queue s;
     module_cache := module_cache s; effects := effects s |}.

Definition set_events (v : list (string * Handler)) (s : State) : State :=
  {| objects := objects s; next_object := next_object s; arrays := arrays s;
     api := api s; recorded := recorded s; events := v; current := current s;
     groups := groups s; booted := booted s; initialized := initialized s;
     publicPath := publicPath s; babelConfig := babelConfig s;
     global_Mix := global_Mix s; global_group := global_group s; queue := queue s;
     module_cache := module_cache s; effects := effects s |}.

Definition set_current (v : list BuildGroup) (s : State) : State :=
  {| objects := objects s; next_object := next_object s; arrays := arrays s;
     api := api s; recorded := recorded s; events := events s; current := v;
     groups := groups s; booted := booted s; initialized := initialized s;
     publicPath := publicPath s; babelConfig := babelConfig s;
     global_Mix := global_Mix s; global_group := global_group s; queue := queue s;
     module_cache := module_cache s; effects := effects s |}.

Definition set_groups (v : list BuildGroup) (s : State) : State :=
  {| objects := objects s; next_object := next_object s; arrays := arrays s;
     api := api s; recorded := recorded s; events := events s; current := current s;
     groups := v; booted := booted s; initialized := initialized s;
     publicPath := publicPath s; babelConfig := babelConfig s;
     global_Mix := global_Mix s; global_group := global_group s; queue := queue s;
     module_cache := module_cache s; effects := effects s |}.

Definition set_booted (v : bool) (s : State) : State :=
  {| objects := objects s; next_object := next_object s; arrays := arrays s;
     api := api s; recorded := recorded s; events := events s; current := current s;
     groups := groups s; booted := v; initialized := initialized s;
     publicPath := publicPath s; babelConfig := babelConfig s;
     global_Mix := global_Mix s; global_group := global_group s; queue := queue s;
     module_cache := module_cache s; effects := effects s |}.

Definition set_initialized (v : bool) (s : State) : State :=
  {| objects := objects s; next_object := next_object s; arrays := arrays s;
     api := api s; recorded := recorded s; events := events s; current := current s;
     groups := groups s; booted := booted s; initialized := v;
     publicPath := publicPath s; babelConfig := babelConfig s;
     global_Mix := global_Mix s; global_group := global_group s; queue := queue s;
     module_cache := module_cache s; effects := effects s |}.

Definition set_publicPath (v : string) (s : State) : State :=
  {| objects := objects s; next_object := next_object s; arrays := arrays s;
     api := api s; recorded := recorded s; events := events s; current := current s;
     groups := groups s; booted := booted s; initialized := initialized s;
     publicPath := v; babelConfig := babelConfig s; global_Mix := global_Mix s;
     global_group := global_group s; queue := queue s;
     module_cache := module_cache s; effects := effects s |}.

Definition set_babelConfig (v : Value) (s : State) : State :=
  {| objects := objects s; next_object := next_object s; arrays := arrays s;
     api := api s; recorded := recorded s; events := events s; current := current s;
     groups := groups s; booted := booted s; initialized := initialized s;
     publicPath := publicPath s; babelConfig := v; global_Mix := global_Mix s;
     global_group := global_group s; queue := queue s;
     module_cache := module_cache s; effects := effects s |}.

Definition set_global_Mix (v : bool) (s : State) : State :=
  {| objects := objects s; next_object := next_object s; arrays := arrays s;
     api := api s; recorded := recorded s; events := events s; current := current s;
     groups := groups s; booted := booted s; initialized := initialized s;
     publicPath := publicPath s; babelConfig := babelConfig s; global_Mix := v;
     global_group := global_group s; queue := queue s;
     module_cache := module_cache s; effects := effects s |}.

Definition set_global_group (v : option BuildGroup) (s : State) : State :=
  {| objects := objects s; next_object := next_object s; arrays := arrays s;
     api := api s; recorded := recorded s; events := events s; current := current s;
     groups := groups s; booted := booted s; initialized := initialized s;
     publicPath := publicPath s; babelConfig := babelConfig s;
     global_Mix := global_Mix s; global_group := v; queue := queue s;
     module_cache := module_cache s; effects := effects s |}.

Definition set_queue (v : list (Value * bool)) (s : State) : State :=
  {| objects := objects s; next_object := next_object s; arrays := arrays s;
     api := api s; recorded := recorded s; events := events s; current := current s;
     groups := groups s; booted := booted s; initialized := initialized s;
     publicPath := publicPath s; babelConfig := babelConfig s;
     global_Mix := global_Mix s; global_group := global_group s; queue := v;
     module_cache := module_cache s; effects := effects s |}.

Definition set_module_cache (v : option (option Value)) (s : State) : State :=
  {| objects := objects s; next_object := next_object s; arrays := arrays s;
     api := api s; recorded := recorded s; events := events s; current := current s;
     groups := groups s; booted := booted s; initialized := initialized s;
     publicPath := publicPath s; babelConfig := babelConfig s;
     global_Mix := global_Mix s; global_group := global_group s; queue := queue s;
     module_cache := v; effects := effects s |}.

Definition set_effects (v : list Effect) (s : State) : State :=
  {| objects := objects s; next_object := next_object s; arrays := arrays s;
     api := api s; recorded := recorded s; events := events s; current := current s;
     groups := groups s; booted := booted s; initialized := initialized s;
     publicPath := publicPath s; babelConfig := babelConfig s;
     global_Mix := global_Mix s; global_group := global_group s; queue := queue s;
     module_cache := module_cache s; effects := v |}.
(** ** The monad of methods: state and exceptions *)

Inductive Outcome (A : Type) :=
| Ret (a : A) (s : State)
| Throw (e : Value) (s : State).
Arguments Ret {A} a s.
Arguments Throw {A} e s.

Definition M (A : Type) : Type := State -> Outcome A.

Definition ret {A} (a : A) : M A := fun s => Ret a s.
Definition throw {A} (e : Value) : M A := fun s => Throw e s.
Definition bind {A B} (m : M A) (k : A -> M B) : M B :=
  fun s => match m s with
           | Ret a s' => k a s'
           | Throw e s' => Throw e s'
           end.
Definition modify (f : State -> State) : M unit := fun s => Ret tt (f s).
Definition read {A} (f : State -> A) : M A := fun s => Ret (f s) s.

Declare Scope js_scope.
Delimit Scope js_scope with js.
Notation "'let*' x := m 'in' k" := (bind m (fun x => k))
  (at level 10, x name, m at level 100, k at level 200) : js_scope.
Notation "m ;; k" := (bind m (fun _ => k))
  (at level 100, k at level 200, right associativity) : js_scope.

Definition final_state {A} (o : Outcome A) : State :=
  match o with Ret _ s => s | Throw _ s => s end.

Definition returns {A} (o : Outcome A) : bool :=
  match o with Ret _ _ => true | Throw _ _ => false end.

(** [array.forEach(f)], in order. *)
Fixpoint forEach {A} (f : A -> M unit) (l : list A) : M unit :=
  match l with
  | [] => ret tt
  | x :: r => bind (f x) (fun _ => forEach f r)
  end.

(** ** The host: user code and the collaborators outside the sources *)

Class Host := {
  (** [f.call(this, ...args)] for a user-supplied function [f]. *)
  call : Fn -> Value -> list Value -> M Value;
  (** Modelled from the spec: [BuildGroup.config()], the "local
      config-emission routine" of a scope, "producing one finalized
      configuration object" ([./Build/BuildGroup] is not part of the
      sources). *)
  group_config : BuildGroup -> M Value;
  (** Modelled from the spec: [BuildGroup.setup()], the "local setup hook"
      of a scope. *)
  group_setup : BuildGroup -> M Value;
  (** Modelled from the spec: the getter [BuildGroup.shouldBeBuilt], the
      "buildability predicate" of a scope. *)
  shouldBeBuilt : BuildGroup -> bool;
  (** [File.exists('./artisan')] *)
  artisan_exists : bool;
  (** [mergeWebpackConfig] of [../builder/MergeWebpackConfig]. *)
  mergeWebpackConfig : Value -> Value -> Value;
  (** [import(this.paths.mix())]: [None] when the import fails; otherwise
      the function run when the module is first evaluated and its default
      export, when that is a function. *)
  mix_config : option (Fn * option Fn)
}.

Local Open Scope js_scope.

(** ** Dispatcher *)

Module Dispatcher.

(** Modelled from the spec: [listen] of [./Dispatcher], which is not part
    of the sources: "registers handler at the end of the ordered list for
    eventName; no uniqueness constraint". *)
Definition listen (event : string) (handler : Handler) : M unit :=
  modify (fun s => set_events (events s ++ [(event, handler)]) s).

Definition handlers (event : string) (s : State) : list Handler :=
  map snd (filter (fun eh => String.eqb eh.1 event) (events s)).

Fixpoint run_all (run : Handler -> Value -> M Value) (hs : list Handler)
    (data : Value) : M Value :=
  match hs with
  | [] => ret VUndefined
  | h :: rest => run h data ;; run_all run rest data
  end.

(** Modelled from the spec: [fire] of [./Dispatcher]: "awaits each
    registered handler for eventName in registration order, sequentially;
    resolves once all complete; resolves immediately (no error) if no
    handlers exist"; "any handler rejecting aborts remaining handlers for
    that fire call and propagates to the caller". [run] applies a
    registered closure to the payload. *)
Definition fire (run : Handler -> Value -> M Value) (event : string)
    (data : Value) : M Value :=
  fun s => run_all run (handlers event s) data s.

End Dispatcher.

(** ** Collaborators of the registrar *)

(** Modelled from the spec: [record] of [./components/Components], which is
    not part of the sources: "records the component instance under that
    alias for later introspection". *)
Definition record_alias (name : string) (component : nat) (s : State) : State :=
  set_recorded (<[name := component]> (recorded s)) s.

Definition Components_record (name : string) (component : nat) : M unit :=
  modify (record_alias name component).

(** Modelled from the spec: [Dependencies.queue], "handlers append to a
    shared queue of (package descriptor, reload-required flag) entries; no
    installation occurs yet". *)
Definition Dependencies_queue (deps : Value) (requiresReload : bool) : M unit :=
  modify (fun s => set_queue (queue s ++ [(deps, requiresReload)]) s).

Definition merge_entry (acc : list (Value * bool)) (e : Value * bool)
  : list (Value * bool) :=
  if existsb (fun a => Value_eqb a.1 e.1) acc
  then map (fun a => if Value_eqb a.1 e.1 then (a.1, a.2 || e.2) else a) acc
  else acc ++ [e].

(** Modelled from the spec: [Dependencies.installQueued]: "deduplicate the
    queued entries by package identity; if any entry requires a reload,
    terminate the host process after delegating installation to the
    external installer". *)
Definition Dependencies_installQueued : M unit :=
  fun s =>
    let packages := fold_left merge_entry (queue s) [] in
    let s' := set_effects (effects s ++ [InstallQueued packages]) s in
    if existsb snd packages then Throw VProcessExit s' else Ret tt s'.

(** Writes to a component object held by reference. *)
Definition write_object (c : nat) (f : Component.t -> Component.t) (s : State)
  : State :=
  set_objects (fun i => if (i =? c)%nat then f (objects s i) else objects s i) s.

Definition update_object (c : nat) (f : Component.t -> Component.t) : M unit :=
  modify (write_object c f).

(** [new ComponentDefinition()]: a fresh object. *)
Definition new_object (init : Component.t) : M nat :=
  fun s =>
    let c := next_object s in
    Ret c (set_next_object (S c)
             (set_objects (fun i => if (i =? c)%nat then init else objects s i) s)).

(** ** ComponentRegistrar *)

Module ComponentRegistrar.

(** What [install] is given: a class (its instances start as [proto]) or
    an object that exists already. A constructor is taken to do nothing
    but initialise the properties of the new object: it runs no other
    code and does not throw. *)
Inductive ComponentDefinition :=
| Class (proto : Component.t)
| Instance (component : nat).

Definition is_upper (c : ascii) : bool :=
  let n := nat_of_ascii c in ((65 <=? n) && (n <=? 90))%nat.

(** [s.replace(/^([A-Z])/, letter => letter.toLowerCase())] *)
Definition lower_first (s : string) : string :=
  match s with
  | String c r =>
      if is_upper c then String (ascii_of_nat (nat_of_ascii c + 32)) r else s
  | EmptyString => s
  end.

(** The [names] of [registerComponent]. The accessor [name()] is taken to
    be a pure function of the component: it returns the value held in
    [Component.name] and does nothing else. *)
Definition names (component : Component.t) : list string :=
  match Component.name component with
  | Component.NameString alias => [alias]
  | Component.NameArray aliases => aliases
  | Component.ConstructorName ctor => [lower_first ctor]
  end.

Section WithHost.
Context `{Host}.

(** The closure [(...args) => { ... }] stored under [name]. *)
Definition composite (name : string) (component : nat) (args : list Value)
  : M Value :=
  Components_record name component ;;
  update_object component (Component.set_caller (Some name)) ;;
  let* hook := read (fun s => Component.register (objects s component)) in
  match hook with
  | Some f => call f (VObject component) args ;; ret tt
  | None => ret tt
  end ;;
  update_object component (Component.set_activated true) ;;
  ret VApi.

(** [this.components[name](...args)] *)
Definition invoke (name : string) (args : list Value) : M Value :=
  let* method := read (fun s => api s !! name) in
  match method with
  | Some (Composite n c) => composite n c args
  | Some (Direct f) => call f VApi args
  | None => throw (VError "TypeError: this.components[name] is not a function")
  end.

(** The closure [register] of [registerComponent]. The accessor [mix()],
    which the source calls once for the keys and once more for each key,
    is taken to be a pure function of the component: every call returns
    the methods held in [Component.mix], in the order of their keys, and
    does nothing else. *)
Definition register (component : nat) (name : string) : M unit :=
  modify (fun s => set_api (<[name := Composite name component]> (api s)) s) ;;
  let* passive := read (fun s => Component.passive (objects s component)) in
  (if passive then invoke name [] ;; ret tt else ret tt) ;;
  let* extra := read (fun s => Component.mix (objects s component)) in
  match extra with
  | Some methods =>
      forEach (fun m : string * Fn =>
                 modify (fun s => set_api (<[m.1 := Direct m.2]> (api s)) s))
              methods
  | None => ret tt
  end.

Definition registerComponent (component : nat) : M unit :=
  let* names := read (fun s => names (objects s component)) in
  forEach (register component) names.

(** [this.mix.listen] hands the closure over to the dispatcher. *)
Definition install (definition : ComponentDefinition) : M Value :=
  let* component :=
    match definition with
    | Class proto => new_object proto
    | Instance c => ret c
    end in
  registerComponent component ;;
  Dispatcher.listen "internal:gather-dependencies" (OnGatherDependencies component) ;;
  Dispatcher.listen "init" (OnInit component) ;;
  ret VApi.

(** [[].concat(v)] *)
Definition concat_value (v : Value) (s : State) : list Value :=
  match v with
  | VArray r => arrays s r
  | _ => [v]
  end.

(** [newItems && target.push(...[].concat(newItems))] *)
Definition push_new (target newItems : Value) : M unit :=
  if truthy newItems then
    match target with
    | VArray r =>
        modify (fun s =>
          set_arrays (fun i => if (i =? r)%nat
                               then arrays s r ++ concat_value newItems s
                               else arrays s i) s)
    | _ => throw (VError "TypeError: push is not a function")
    end
  else ret tt.

Definition applyBabelConfig (component : nat) (f : Fn) : M unit :=
  let* old := read babelConfig in
  let* contribution := call f (VObject component) [] in
  modify (set_babelConfig (mergeWebpackConfig old contribution)).

Definition applyRules (rules : Value) (component : nat) (f : Fn) : M unit :=
  let* newRules := call f (VObject component) [] in
  push_new rules newRules.

Definition applyPlugins (plugins : Value) (component : nat) (f : Fn) : M unit :=
  let* newPlugins := call f (VObject component) [] in
  push_new plugins newPlugins.

(** [!component.activated && !component.passive] *)
Definition dormant (component : nat) (s : State) : bool :=
  negb (Component.activated (objects s component))
  && negb (Component.passive (objects s component)).

(** Call an optional hook of the component with the payload. *)
Definition optional_hook (get : Component.t -> option Fn) (component : nat)
    (args : list Value) : M Value :=
  let* hook := read (fun s => get (objects s component)) in
  match hook with
  | Some f => call f (VObject component) args
  | None => ret VUndefined
  end.

(** The bodies of the closures that [install] and its [init] listener
    register. *)
Definition run_listener (h : Handler) (data : Value) : M Value :=
  match h with
  | OnGatherDependencies c =>
      let* idle := read (dormant c) in
      if idle then ret VUndefined
      else
        let* hook := read (fun s => Component.dependencies (objects s c)) in
        match hook with
        | None => ret VUndefined
        | Some f =>
            let* deps := call f (VObject c) [] in
            let* reload := read (fun s => Component.requiresReload (objects s c)) in
            Dependencies_queue deps reload ;;
            ret VUndefined
        end
  | OnInit c =>
      let* idle := read (dormant c) in
      if idle then ret VUndefined
      else
        optional_hook Component.boot c [] ;;
        let* babel := read (fun s => Component.babelConfig (objects s c)) in
        match babel with
        | Some f => applyBabelConfig c f
        | None => ret tt
        end ;;
        Dispatcher.listen "loading-entry" (OnLoadingEntry c) ;;
        Dispatcher.listen "loading-rules" (OnLoadingRules c) ;;
        Dispatcher.listen "loading-plugins" (OnLoadingPlugins c) ;;
        Dispatcher.listen "configReady" (OnConfigReady c) ;;
        ret VUndefined
  | OnLoadingEntry c => optional_hook Component.webpackEntry c [data]
  | OnLoadingRules c =>
      let* hook := read (fun s => Component.webpackRules (objects s c)) in
      match hook with
      | Some f => applyRules data c f ;; ret VUndefined
      | None => ret VUndefined
      end
  | OnLoadingPlugins c =>
      let* hook := read (fun s => Component.webpackPlugins (objects s c)) in
      match hook with
      | Some f => applyPlugins data c f ;; ret VUndefined
      | None => ret VUndefined
      end
  | OnConfigReady c => optional_hook Component.webpackConfig c [data]
  | OnInitHotRecord =>
      modify (fun s => set_effects (effects s ++ [HotRecord]) s) ;; ret VUndefined
  | UserHandler f => call f VUndefined [data]
  end.

End WithHost.

End ComponentRegistrar.

(** ** Mix *)

Module Mix.

Definition root_group : BuildGroup :=
  {| group_name := "Mix"; group_callback := None |}.

Definition blank_component : Component.t :=
  {| Component.name := Component.ConstructorName "Object";
     Component.passive := false; Component.activated := false;
     Component.caller := None; Component.requiresReload := false;
     Component.register := None; Component.mix := None;
     Component.dependencies := None; Component.boot := None;
     Component.babelConfig := None; Component.webpackEntry := None;
     Component.webpackRules := None; Component.webpackPlugins := None;
     Component.webpackConfig := None |}.

(** [new Mix()]; the initial configuration comes from [buildConfig]. *)
Definition create (publicPath0 : string) (babelConfig0 : Value) : State :=
  {| objects := fun _ => blank_component; next_object := 0;
     arrays := fun _ => []; api := ∅; recorded := ∅; events := [];
     current := [root_group]; groups := [root_group];
     booted := false; initialized := false;
     publicPath := publicPath0; babelConfig := babelConfig0;
     global_Mix := false; global_group := None; queue := [];
     module_cache := None; effects := [] |}.

Definition effect (e : Effect) : M unit :=
  modify (fun s => set_effects (effects s ++ [e]) s).

Definition not_set_up_warning : string :=
  "Mix was not set up correctly. Please ensure you import or require laravel-mix in your mix config.".

(** Modelled from the spec: [BuildGroup.makeCurrent()], which "marks
    scope current, returns it" ([./Build/BuildGroup] is not part of the
    sources). *)
Definition BuildGroup_makeCurrent (group : BuildGroup) : M unit :=
  modify (set_global_group (Some group)).

Definition listen (event : string) (callback : Handler) : M unit :=
  Dispatcher.listen event callback.

(** The getter [currentGroup]; [None] is [undefined]. *)
Definition currentGroup (s : State) : option BuildGroup := last (current s).

Definition pushCurrent (group : BuildGroup) : M unit :=
  BuildGroup_makeCurrent group ;;
  modify (fun s => set_current (current s ++ [group]) s).

Definition popCurrent : M unit :=
  fun s =>
    if (length (current s) =? 1)%nat then Ret tt s
    else
      let s' := set_current (removelast (current s)) s in
      match currentGroup s' with
      | Some group => BuildGroup_makeCurrent group s'
      | None => Throw (VError "TypeError: this.currentGroup is undefined") s'
      end.

(** [try { return await fn() } finally { this.mix.popCurrent() }] *)
Definition finally_pop {A} (o : Outcome A) : Outcome A :=
  match o with
  | Ret a s =>
      match popCurrent s with
      | Ret _ s' => Ret a s'
      | Throw e s' => Throw e s'
      end
  | Throw e s =>
      match popCurrent s with
      | Ret _ s' => Throw e s'
      | Throw e' s' => Throw e' s'
      end
  end.

(** Modelled from the spec: [BuildGroup.whileCurrent(fn)], which "pushes
    a scope, invokes fn (possibly asynchronous), and guarantees pop runs
    on every exit path, including a thrown/rejected fn". *)
Definition BuildGroup_whileCurrent {A} (group : BuildGroup) (fn : M A) : M A :=
  fun s =>
    match pushCurrent group s with
    | Ret _ s1 => finally_pop (fn s1)
    | Throw e s1 => Throw e s1
    end.

Definition addGroup (name : string) (callback : Fn) : M unit :=
  modify (fun s =>
    set_groups (groups s ++ [{| group_name := name; group_callback := Some callback |}]) s).

Section WithHost.
Context `{Host}.

Definition buildableGroups (s : State) : list BuildGroup :=
  filter (fun group => shouldBeBuilt group) (groups s).

Definition sees (tool : string) : bool :=
  if String.eqb tool "laravel" then artisan_exists else false.

Definition makeCurrent : M unit :=
  modify (set_global_Mix true) ;;
  let* first := read (fun s => head (groups s)) in
  match first with
  | Some group => BuildGroup_makeCurrent group
  | None => throw (VError "TypeError: this.groups[0] is undefined")
  end.

Definition boot : M unit :=
  let* done := read booted in
  if done then ret tt
  else
    modify (set_booted true) ;;
    effect DotenvConfig ;;
    (if sees "laravel" then modify (set_publicPath "public") else ret tt) ;;
    listen "init" OnInitHotRecord ;;
    makeCurrent.

(** [Promise.all(groups.map(f))]. [map] calls [f] on every group, so
    every call is made, also after one of them has rejected; the calls
    are taken one after the other. The results come in the order of
    [groups]; when calls reject, the rejection reported is the first in
    that order. *)
Fixpoint Promise_all_map (f : BuildGroup -> M Value) (l : list BuildGroup)
  : M (list Value) :=
  match l with
  | [] => ret []
  | group :: rest =>
      fun s =>
        match f group s with
        | Ret y s1 =>
            match Promise_all_map f rest s1 with
            | Ret ys s2 => Ret (y :: ys) s2
            | Throw e s2 => Throw e s2
            end
        | Throw e s1 => Throw e (final_state (Promise_all_map f rest s1))
        end
  end.

Definition build : M (list Value) :=
  let* done := read booted in
  (if done then ret tt
   else effect (ConsoleWarn not_set_up_warning) ;; boot) ;;
  let* buildable := read buildableGroups in
  Promise_all_map group_config buildable.

Definition setup : M unit :=
  let* buildable := read buildableGroups in
  Promise_all_map group_setup buildable ;; ret tt.

Definition dispatch (event : string) (data : Value) : M Value :=
  let* group := read currentGroup in
  match group with
  | Some g =>
      BuildGroup_whileCurrent g
        (let* data :=
           match data with
           | VFunction f => call f VUndefined []
           | _ => ret data
           end in
         Dispatcher.fire ComponentRegistrar.run_listener event data)
  | None => throw (VError "TypeError: this.currentGroup is undefined")
  end.

Definition installDependencies : M unit :=
  dispatch "internal:gather-dependencies" VUndefined ;;
  Dependencies_installQueued.

Definition init : M unit :=
  let* done := read initialized in
  if done then ret tt
  else
    modify (set_initialized true) ;;
    dispatch "init" VMix ;;
    ret tt.

(** [await import(path)]: the module is evaluated on the first import
    only; a failed evaluation is cached and thrown again. *)
Definition import_mix_config : M (option Fn) :=
  match mix_config with
  | None => throw (VError "Cannot find module")
  | Some (body, default_export) =>
      let* cached := read module_cache in
      match cached with
      | Some None => ret default_export
      | Some (Some e) => throw e
      | None =>
          fun s =>
            match call body VUndefined [] s with
            | Ret _ s' => Ret default_export (set_module_cache (Some None) s')
            | Throw e s' => Throw e (set_module_cache (Some (Some e)) s')
            end
      end
  end.

Definition load : M unit :=
  let* default_export := import_mix_config in
  match default_export with
  | Some f =>
      let* group := read currentGroup in
      match group with
      | Some g => BuildGroup_whileCurrent g (call f VUndefined [VApi]) ;; ret tt
      | None => throw (VError "TypeError: this.currentGroup is undefined")
      end
  | None => ret tt
  end.

(** The default export of [setup/webpack.config.mjs]. *)
Definition webpack_config : M (list Value) :=
  load ;; setup ;; installDependencies ;; init ;; build.

End WithHost.

End Mix.

(** ** Sample hosts and inputs *)

Module Sample.

(** A host whose user functions leave a trace of their invocation and
    return [undefined]; groups named "A" are buildable, and a group's
    configuration is its name. *)
Definition tracing_call (f : Fn) (this : Value) (args : list Value) : M Value :=
  fun s => Ret VUndefined (set_effects (effects s ++ [Trace f this args]) s).

Definition host : Host :=
  {| call := tracing_call;
     group_config := fun g s => Ret (VStr (group_name g)) s;
     group_setup := fun g s => Ret VUndefined s;
     shouldBeBuilt := fun g => String.eqb (group_name g) "A";
     artisan_exists := true;
     mergeWebpackConfig := fun _ contribution => contribution;
     mix_config := Some (100, Some 101) |}.

(** A host whose function 7 throws. *)
Definition throwing_call (f : Fn) (this : Value) (args : list Value) : M Value :=
  fun s => if (f =? 7)%nat then Throw (VError "boom") s else tracing_call f this args s.

Definition throwing_host : Host :=
  {| call := throwing_call;
     group_config := fun g s => Ret (VStr (group_name g)) s;
     group_setup := fun g s => Ret VUndefined s;
     shouldBeBuilt := fun g => String.eqb (group_name g) "A";
     artisan_exists := false;
     mergeWebpackConfig := fun _ contribution => contribution;
     mix_config := None |}.

Definition start : State := Mix.create "" VUndefined.

(** [class Sass { register(...) {...}; dependencies() {...} }] *)
Definition sass : Component.t :=
  {| Component.name := Component.ConstructorName "Sass";
     Component.passive := false; Component.activated := false;
     Component.caller := None; Component.requiresReload := false;
     Component.register := Some 1; Component.mix := None;
     Component.dependencies := Some 2; Component.boot := None;
     Component.babelConfig := None; Component.webpackEntry := None;
     Component.webpackRules := Some 3; Component.webpackPlugins := None;
     Component.webpackConfig := None |}.

(** A second component answering to the alias [sass] as well. *)
Definition fast_sass : Component.t :=
  {| Component.name := Component.NameArray ["sass"; "scss"];
     Component.passive := false; Component.activated := false;
     Component.caller := None; Component.requiresReload := false;
     Component.register := Some 4; Component.mix := None;
     Component.dependencies := None; Component.boot := None;
     Component.babelConfig := None; Component.webpackEntry := None;
     Component.webpackRules := None; Component.webpackPlugins := None;
     Component.webpackConfig := None |}.

(** A passive component without a [register] hook. *)
Definition notifications : Component.t :=
  {| Component.name := Component.ConstructorName "Notifications";
     Component.passive := true; Component.activated := false;
     Component.caller := None; Component.requiresReload := false;
     Component.register := None; Component.mix := None;
     Component.dependencies := None; Component.boot := Some 5;
     Component.babelConfig := None; Component.webpackEntry := None;
     Component.webpackRules := None; Component.webpackPlugins := None;
     Component.webpackConfig := None |}.

(** A component whose [register] hook is function 7. *)
Definition broken : Component.t :=
  {| Component.name := Component.ConstructorName "Broken";
     Component.passive := false; Component.activated := false;
     Component.caller := None; Component.requiresReload := false;
     Component.register := Some 7; Component.mix := None;
     Component.dependencies := None; Component.boot := None;
     Component.babelConfig := None; Component.webpackEntry := None;
     Component.webpackRules := None; Component.webpackPlugins := None;
     Component.webpackConfig := None |}.

(** A component that writes two methods to the API directly, one of them
    under the name of its own alias. *)
Definition extend : Component.t :=
  {| Component.name := Component.NameString "extend";
     Component.passive := false; Component.activated := false;
     Component.caller := None; Component.requiresReload := false;
     Component.register := Some 20;
     Component.mix := Some [("extend", 21); ("override", 22)];
     Component.dependencies := None; Component.boot := None;
     Component.babelConfig := None; Component.webpackEntry := None;
     Component.webpackRules := None; Component.webpackPlugins := None;
     Component.webpackConfig := None |}.

(** A component answering to [extend] that writes nothing to the API
    directly. *)
Definition plain_extend : Component.t :=
  {| Component.name := Component.NameString "extend";
     Component.passive := false; Component.activated := false;
     Component.caller := None; Component.requiresReload := false;
     Component.register := Some 23; Component.mix := None;
     Component.dependencies := None; Component.boot := None;
     Component.babelConfig := None; Component.webpackEntry := None;
     Component.webpackRules := None; Component.webpackPlugins := None;
     Component.webpackConfig := None |}.


Definition group_A : BuildGroup := {| group_name := "A"; group_callback := Some 10 |}.
Definition group_B : BuildGroup := {| group_name := "B"; group_callback := Some 11 |}.

(** The state after the scopes "A" and "B" were declared. *)
Definition two_scopes : State :=
  set_groups [Mix.root_group; group_A; group_B] start.

(** The state after [sass] was installed. *)
Definition sass_installed : State :=
  final_state (@ComponentRegistrar.install host (ComponentRegistrar.Class sass) start).

(** The state after [sass] was installed and invoked once. *)
Definition sass_in_use : State :=
  final_state
    (bind (@ComponentRegistrar.install host (ComponentRegistrar.Class sass))
          (fun _ => @ComponentRegistrar.invoke host "sass" [VStr "src/app.scss"])
          start).

(** A host whose function 3 returns one module rule. *)
Definition contributing_call (f : Fn) (this : Value) (args : list Value) : M Value :=
  fun s =>
    Ret (if (f =? 3)%nat then VStr "sass-rule" else VUndefined)
        (set_effects (effects s ++ [Trace f this args]) s).

Definition contributing_host : Host :=
  {| call := contributing_call;
     group_config := fun g s => Ret (VStr (group_name g)) s;
     group_setup := fun g s => Ret VUndefined s;
     shouldBeBuilt := fun g => String.eqb (group_name g) "A";
     artisan_exists := false;
     mergeWebpackConfig := fun _ contribution => contribution;
     mix_config := None |}.

(** [sass_in_use], with one module rule in the array 3 already. *)
Definition with_rules : State :=
  set_arrays (fun i => if (i =? 3)%nat then [VStr "babel-rule"] else arrays sass_in_use i)
             sass_in_use.

(** A content hash for the examples: it ignores the content. *)
Definition constant_hash (content : string) : string := "0123456789abcdef0123".

Definition one_file (p : string) : option string :=
  if String.eqb p "/js/app.js" then Some "console.log(1)" else None.

Definition byte_compare (a b : string) : Z :=
  match String.compare a b with Lt => (-1)%Z | Eq => 0%Z | Gt => 1%Z end.

Definition empty_manifest : Manifest.t := Manifest.create None.

End Sample.

(** * Properties *)

(** ** Strings and paths *)

(** All characters of [s] are in [\w]. *)
Fixpoint word_chars (s : string) : bool :=
  match s with
  | EmptyString => true
  | String c r => is_word c && word_chars r
  end.

(** [s] holds no question mark. *)
Fixpoint no_question_mark (s : string) : bool :=
  match s with
  | EmptyString => true
  | String c r => negb (Ascii.eqb c "?"%char) && no_question_mark r
  end.

(** A content hash as the manifest expects it: twenty word characters. *)
Definition content_hash (hash20 : string -> string) : Prop :=
  forall content,
    String.length (hash20 content) = 20 /\ word_chars (hash20 content) = true.

(** [h] appended to the last of a list of segments. *)
Fixpoint onto_last (segs : list string) (h : string) : list string :=
  match segs with
  | [] => [h]
  | [seg] => [seg +:+ h]
  | seg :: rest => seg :: onto_last rest h
  end.

(** ** Notions used in the statements *)

(** The calls that write to a manifest, the key each of them writes, and
    a sequence of such calls. *)
Inductive manifest_op :=
| Add (filePath : string)
| Hash (file : string).

Definition manifest_key (publicPath : string) (op : manifest_op) : string :=
  match op with
  | Add filePath => strip_id (Manifest.normalizePath publicPath filePath)
  | Hash file => Manifest.normalizePath publicPath file
  end.

Definition manifest_call (publicPath : string) (read_file : string -> option string)
    (hash20 : string -> string) (op : manifest_op) (m : Manifest.t)
  : Manifest.error + Manifest.t :=
  match op with
  | Add filePath => inr (Manifest.add publicPath filePath m)
  | Hash file => Manifest.hash publicPath read_file hash20 file m
  end.

Fixpoint manifest_calls (publicPath : string) (read_file : string -> option string)
    (hash20 : string -> string) (ops : list manifest_op) (m : Manifest.t)
  : Manifest.error + Manifest.t :=
  match ops with
  | [] => inr m
  | op :: rest =>
      match manifest_call publicPath read_file hash20 op m with
      | inr m' => manifest_calls publicPath read_file hash20 rest m'
      | inl e => inl e
      end
  end.

(** [s] holds no backslash. *)
Fixpoint no_backslash (s : string) : bool :=
  match s with
  | EmptyString => true
  | String c r => negb (Ascii.eqb c backslash) && no_backslash r
  end.

(** A manifest as [add] and [hash] keep it: no key twice, and every key
    and every served path starts with a slash. *)
Definition well_formed_manifest (entries : list (string * string)) : Prop :=
  NoDup (map fst entries)
  /\ Forall (fun kv : string * string =>
               startsWith kv.1 "/" = true /\ startsWith kv.2 "/" = true) entries.

(** The comparator puts any two keys in one order or the other. *)
Definition total_comparator (cmp : string -> string -> Z) : Prop :=
  forall a b, (cmp a b <= 0)%Z \/ (cmp b a <= 0)%Z.

(** An asset that [flattenAssets] keeps: it is listed by a chunk, it is
    not a hot update, and it is not the [mix.js] of the chunk [mix]. *)
Definition kept_asset (assetsByChunkName : list (string * Manifest.chunk_assets))
    (asset : string) : Prop :=
  includes asset "hot-update" = false
  /\ exists chunk assets,
       (chunk, assets) ∈ assetsByChunkName
       /\ asset ∈ Manifest.asset_list assets
       /\ ~ (chunk = "mix" /\ Manifest.chunk_truthy assets = true /\ asset = "mix.js").

(** The object that [install] registers: a fresh one for a class, the
    given one otherwise; and its properties when [install] starts. *)
Definition component_ref (d : ComponentRegistrar.ComponentDefinition) (s : State)
  : nat :=
  match d with
  | ComponentRegistrar.Class _ => next_object s
  | ComponentRegistrar.Instance c => c
  end.

Definition component_of (d : ComponentRegistrar.ComponentDefinition) (s : State)
  : Component.t :=
  match d with
  | ComponentRegistrar.Class proto => proto
  | ComponentRegistrar.Instance c => objects s c
  end.

(** The methods a component writes to the API directly, and their names. *)
Definition mix_methods (o : Component.t) : list (string * Fn) :=
  match Component.mix o with
  | Some methods => methods
  | None => []
  end.

Definition mix_keys (o : Component.t) : list string := map fst (mix_methods o).

(** The state in which [install] registers its component: a class has
    been instantiated. *)
Definition provisioned (d : ComponentRegistrar.ComponentDefinition) (s : State)
  : State :=
  match d with
  | ComponentRegistrar.Class proto => final_state (new_object proto s)
  | ComponentRegistrar.Instance _ => s
  end.

(** User code leaves the API surface and the [mix] accessors alone. *)
Definition api_and_mix_kept (s s' : State) : Prop :=
  api s' = api s
  /\ forall i, Component.mix (objects s' i) = Component.mix (objects s i).

(** The API surface after the methods of [mix()] were merged into it. *)
Definition merge_mix (methods : list (string * Fn)) (a : gmap string Method)
  : gmap string Method :=
  fold_left (fun acc (m : string * Fn) => <[m.1 := Direct m.2]> acc) methods a.

(** The API surface after [register] ran for each of [names]. *)
Definition registered_api (c : nat) (methods : list (string * Fn))
    (names : list string) (a : gmap string Method) : gmap string Method :=
  fold_left (fun acc n => merge_mix methods (<[n := Composite n c]> acc)) names a.

(** The first two steps of a composite method. *)
Definition recorded_and_tagged (name : string) (c : nat) (s : State) : State :=
  write_object c (Component.set_caller (Some name)) (record_alias name c s).

(** Its fourth step. *)
Definition activate (c : nat) (s : State) : State :=
  write_object c (Component.set_activated true) s.

(** Operations on the stack of current build groups. *)
Inductive stack_op :=
| Push (group : BuildGroup)
| Pop.

Definition run_stack_op (op : stack_op) : M unit :=
  match op with
  | Push group => Mix.pushCurrent group
  | Pop => Mix.popCurrent
  end.

(** [m] leaves [R] between the state it starts in and the one it ends
    in, whether it returns or throws. *)
Definition stable {A} (R : State -> State -> Prop) (m : M A) : Prop :=
  forall s, R s (final_state (m s)).

(** Two states agree on [f]. *)
Definition same {B} (f : State -> B) (s s' : State) : Prop := f s' = f s.

Section HostAssumptions.
Context `{Host}.

(** Every user function returns normally. *)
Definition calls_return : Prop :=
  forall f this args s, returns (call f this args s) = true.

(** Every buildable scope emits its configuration. *)
Definition configs_return : Prop :=
  forall g s, returns (group_config g s) = true.

(** [c] is a configuration object that the scope [g] can emit. *)
Definition emitted (g : BuildGroup) (c : Value) : Prop :=
  exists s1 s2, group_config g s1 = Ret c s2.

(** The scopes [gs] emit the configurations [configs] one after the
    other, from the state [s0] on, and leave the state [s']. *)
Fixpoint emitted_in_turn (gs : list BuildGroup) (s0 : State) (configs : list Value)
    (s' : State) : Prop :=
  match gs, configs with
  | [], [] => s' = s0
  | g :: gs', c :: configs' =>
      exists s1, group_config g s0 = Ret c s1 /\ emitted_in_turn gs' s1 configs' s'
  | _, _ => False
  end.

(** User code leaves [R] between the states before and after a call. *)
Definition calls_keep (R : State -> State -> Prop) : Prop :=
  forall f this args, stable R (call f this args).

End HostAssumptions.

Lemma is_word_not_slash c : is_word c = true -> Ascii.eqb c "/"%char = false.
Proof.
  destruct c as [[] [] [] [] [] [] [] []]; vm_compute; intros; congruence.
Qed.

Lemma segments_nonempty s : PosixPath.segments s <> [].
Proof.
  destruct s as [|c r]; simpl; [discriminate|].
  destruct (Ascii.eqb c "/"); [discriminate|].
  destruct (PosixPath.segments r); discriminate.
Qed.

Lemma segments_word h : word_chars h = true -> PosixPath.segments h = [h].
Proof.
  induction h as [|c r IH]; simpl; [reflexivity|].
  intros [Hc Hr]%andb_prop.
  rewrite (is_word_not_slash _ Hc), (IH Hr). reflexivity.
Qed.

Lemma segments_append a h :
  word_chars h = true ->
  PosixPath.segments (a +:+ h) = onto_last (PosixPath.segments a) h.
Proof.
  intros Hh. induction a as [|c a IH]; simpl.
  - now apply segments_word.
  - pose proof (segments_nonempty a) as Hne.
    destruct (Ascii.eqb c "/").
    + rewrite IH. destruct (PosixPath.segments a); [contradiction|reflexivity].
    + rewrite IH. destruct (PosixPath.segments a) as [|seg [|seg' rest]];
        [contradiction|reflexivity|reflexivity].
Qed.

Lemma last_char_word h c :
  word_chars h = true -> PosixPath.last_char h = Some c -> is_word c = true.
Proof.
  induction h as [|d r IH]; simpl; [discriminate|].
  intros [Hd Hr]%andb_prop. destruct r as [|e r'].
  - now intros [= <-].
  - now apply IH.
Qed.

Lemma last_char_append a h :
  h <> EmptyString -> PosixPath.last_char (a +:+ h) = PosixPath.last_char h.
Proof.
  intros Hh. induction a as [|c a IH]; [reflexivity|].
  change (String c a +:+ h) with (String c (a +:+ h)).
  cbn [PosixPath.last_char]. rewrite IH.
  destruct (a +:+ h) eqn:E; [|reflexivity].
  destruct a; simpl in E; [contradiction|discriminate].
Qed.

Lemma no_trailing_slash_append a h :
  word_chars h = true ->
  PosixPath.last_char_is_slash (a +:+ h) =
  if String.eqb h "" then PosixPath.last_char_is_slash a
  else false.
Proof.
  intros Hh. destruct h as [|c r].
  - assert (E : a +:+ "" = a) by (clear; induction a; simpl; congruence).
    now rewrite E.
  - change (String.eqb (String c r) "") with false. cbv iota.
    unfold PosixPath.last_char_is_slash.
    rewrite last_char_append by discriminate.
    destruct (PosixPath.last_char (String c r)) as [d|] eqn:E; [|reflexivity].
    apply is_word_not_slash. eapply last_char_word; eassumption.
Qed.

(** A served path with an id suffix is in normal form already. *)
Lemma normalize_hashed h :
  word_chars h = true ->
  PosixPath.normalize ("/js/app.js?id=" +:+ h) = "/js/app.js?id=" +:+ h.
Proof.
  intros Hh. unfold PosixPath.normalize.
  rewrite (no_trailing_slash_append "/js/app.js?id=" h Hh).
  rewrite (segments_append "/js/app.js?id=" h Hh).
  change (String.eqb ("/js/app.js?id=" +:+ h) "") with false.
  change (startsWith ("/js/app.js?id=" +:+ h) "/") with true.
  destruct (String.eqb h ""); reflexivity.
Qed.

Lemma strip_id_unchanged s : no_question_mark s = true -> strip_id s = s.
Proof.
  induction s as [|c r IH]; [reflexivity|].
  intros [Hc Hr]%andb_prop.
  cbn [strip_id]. unfold id_suffix_here, startsWith. cbn [String.prefix].
  destruct (ascii_dec "?" c) as [<-|_]; [discriminate|].
  cbn [andb]. now rewrite IH.
Qed.

Lemma no_question_mark_substring n s :
  no_question_mark s = true -> no_question_mark (substring_from n s) = true.
Proof.
  revert s. induction n as [|n IH]; intros [|c r]; simpl; try easy.
  intros [_ Hr]%andb_prop. now apply IH.
Qed.

Lemma no_question_mark_replace s :
  no_question_mark s = true -> no_question_mark (replace_backslashes s) = true.
Proof.
  induction s as [|c r IH]; simpl; [easy|].
  intros [Hc Hr]%andb_prop. rewrite (IH Hr), andb_true_r.
  destruct (Ascii.eqb c backslash); [reflexivity|assumption].
Qed.

Lemma no_question_mark_normalizePath P f :
  no_question_mark f = true ->
  no_question_mark (Manifest.normalizePath P f) = true.
Proof.
  intros Hf. unfold Manifest.normalizePath.
  match goal with
  | |- context [replace_backslashes ?x] =>
      assert (Hg : no_question_mark x = true)
        by (destruct (_ && _); [now apply no_question_mark_substring|assumption]);
      apply no_question_mark_replace in Hg; generalize dependent x
  end.
  intros g Hg. destruct (negb _); [simpl; assumption|assumption].
Qed.

Lemma entry_assign k v m : Manifest.entry k (Manifest.assign k v m) = Some v.
Proof.
  induction m as [|[k' v'] r IH]; simpl.
  - now rewrite String.eqb_refl.
  - destruct (String.eqb k' k) eqn:E; simpl.
    + now rewrite String.eqb_refl.
    + now rewrite E.
Qed.

Lemma entry_assign_other k k' v m :
  k <> k' -> Manifest.entry k (Manifest.assign k' v m) = Manifest.entry k m.
Proof.
  intros Hne. induction m as [|[k0 v0] r IH]; simpl.
  - destruct (String.eqb_spec k' k); [congruence|reflexivity].
  - destruct (String.eqb_spec k0 k') as [->|Hk0]; simpl.
    + destruct (String.eqb_spec k' k); [congruence|].
      destruct (String.eqb_spec k' k); [congruence|reflexivity].
    + destruct (String.eqb_spec k0 k); [reflexivity|exact IH].
Qed.

Lemma join_two a b : exists p, PosixPath.join [Some a; Some b] = Some p.
Proof.
  unfold PosixPath.join. simpl.
  destruct (String.eqb a ""), (String.eqb b ""); simpl; eauto.
Qed.

Lemma join_missing a : PosixPath.join [Some a; None] = None.
Proof.
  unfold PosixPath.join. simpl. destruct (String.eqb a ""); reflexivity.
Qed.

(** ** Manifest *)

Section ManifestFacts.

Variable read_file : string -> option string.
Variable hash20 : string -> string.
Variable localeCompare : string -> string -> Z.

(** Whatever the public path, [get] after [add] serves the POSIX join of
    the public path and the normalized path. *)
Lemma get_after_add P m :
  exists p,
    PosixPath.join [Some P; Some (Manifest.normalizePath P "/js/app.js")] = Some p
    /\ Manifest.get P localeCompare (Some "/js/app.js")
         (Manifest.add P "/js/app.js" m) = inr (Manifest.Served p).
Proof.
  destruct (join_two P (Manifest.normalizePath P "/js/app.js")) as [p Hp].
  exists p. split; [assumption|].
  unfold Manifest.get, Manifest.add. cbn [Manifest.manifest].
  change (String.eqb "/js/app.js" "") with false. cbv iota.
  rewrite strip_id_unchanged by (now apply no_question_mark_normalizePath).
  now rewrite entry_assign, Hp.
Qed.

Lemma hash_then_get content m :
  content_hash hash20 ->
  read_file "/js/app.js" = Some content ->
  exists m',
    Manifest.hash "" read_file hash20 "/js/app.js" m = inr m'
    /\ Manifest.get "" localeCompare (Some "/js/app.js") m'
       = inr (Manifest.Served ("/js/app.js?id=" +:+ hash20 content)).
Proof.
  intros Hhash Hread. destruct (Hhash content) as [_ Hword].
  unfold Manifest.hash, Manifest.File_version.
  change (PosixPath.join [Some ""; Some "/js/app.js"]) with (Some "/js/app.js").
  cbv beta iota. rewrite Hread. eexists. split; [reflexivity|].
  unfold Manifest.get. cbn [Manifest.manifest].
  change (String.eqb "/js/app.js" "") with false. cbv iota.
  change (Manifest.normalizePath "" "/js/app.js") with "/js/app.js".
  rewrite entry_assign.
  change (PosixPath.join [Some ""; Some ("/js/app.js" +:+ "?id=" +:+ hash20 content)])
    with (Some (PosixPath.normalize ("/js/app.js?id=" +:+ hash20 content))).
  now rewrite normalize_hashed.
Qed.

(** C8 (as amended). With an empty public path, [get] after [add] returns
    the normalized original path ["/js/app.js"], [get] after [hash] on
    content C returns ["/js/app.js?id="] followed by the hash of C, and
    hashing the unchanged content again yields the same id. In general the
    result of [get] is the POSIX join of the public path with the manifest
    entry, so a non-empty public path is prepended to it. *)
Theorem manifest_round_trip content m :
  content_hash hash20 ->
  read_file "/js/app.js" = Some content ->
  Manifest.get "" localeCompare (Some "/js/app.js") (Manifest.add "" "/js/app.js" m)
  = inr (Manifest.Served "/js/app.js")
  /\ (exists m1 m2,
        Manifest.hash "" read_file hash20 "/js/app.js" m = inr m1
        /\ Manifest.get "" localeCompare (Some "/js/app.js") m1
           = inr (Manifest.Served ("/js/app.js?id=" +:+ hash20 content))
        /\ Manifest.hash "" read_file hash20 "/js/app.js" m1 = inr m2
        /\ Manifest.get "" localeCompare (Some "/js/app.js") m2
           = Manifest.get "" localeCompare (Some "/js/app.js") m1)
  /\ (forall P, exists p,
        PosixPath.join [Some P; Some (Manifest.normalizePath P "/js/app.js")] = Some p
        /\ Manifest.get P localeCompare (Some "/js/app.js")
             (Manifest.add P "/js/app.js" m) = inr (Manifest.Served p)).
Proof.
  intros Hhash Hread. split; [|split].
  - destruct (get_after_add "" m) as [p [Hp Hget]].
    rewrite Hget. now injection Hp as <-.
  - destruct (hash_then_get content m Hhash Hread) as [m1 [H1 G1]].
    destruct (hash_then_get content m1 Hhash Hread) as [m2 [H2 G2]].
    exists m1, m2. repeat split; try assumption. now rewrite G1, G2.
  - intros P. apply get_after_add.
Qed.

(** Calls that write other keys leave a key without an entry. *)
Lemma manifest_calls_other_keys P k ops : forall m m',
  Forall (fun op => manifest_key P op <> k) ops ->
  manifest_calls P read_file hash20 ops m = inr m' ->
  Manifest.entry k (Manifest.manifest m) = None ->
  Manifest.entry k (Manifest.manifest m') = None.
Proof.
  induction ops as [|op rest IH]; intros m m' Hkeys.
  - now intros [= <-].
  - apply Forall_cons in Hkeys as [Hop Hrest]. cbn [manifest_calls].
    destruct (manifest_call P read_file hash20 op m) as [e|m1] eqn:E; [discriminate|].
    intros Hcalls Hnone. apply (IH m1 m' Hrest Hcalls).
    destruct op as [f|f]; cbn [manifest_call manifest_key] in E, Hop.
    + injection E as <-. unfold Manifest.add. cbn [Manifest.manifest].
      rewrite entry_assign_other by congruence. exact Hnone.
    + unfold Manifest.hash in E.
      destruct (PosixPath.join _) as [p|]; [|discriminate].
      destruct (Manifest.File_version read_file hash20 p) as [e|h]; [discriminate|].
      injection E as <-. cbn [Manifest.manifest].
      rewrite entry_assign_other by congruence. exact Hnone.
Qed.

(** C10 (as amended). For a non-empty path whose normalized form has no
    manifest entry, [get] fails: the join over the missing entry throws.
    This is so in particular for a manifest filled from an empty one by
    calls of [add] and [hash] that all write other keys. *)
Theorem get_of_unknown_path_throws P m p :
  p <> "" ->
  (Manifest.entry (Manifest.normalizePath P p) (Manifest.manifest m) = None ->
   Manifest.get P localeCompare (Some p) m = inl Manifest.TypeError_path_undefined)
  /\ (forall name ops,
        Forall (fun op => manifest_key P op <> Manifest.normalizePath P p) ops ->
        manifest_calls P read_file hash20 ops (Manifest.create name) = inr m ->
        Manifest.get P localeCompare (Some p) m = inl Manifest.TypeError_path_undefined).
Proof.
  intros Hp.
  assert (Hthrows :
    Manifest.entry (Manifest.normalizePath P p) (Manifest.manifest m) = None ->
    Manifest.get P localeCompare (Some p) m = inl Manifest.TypeError_path_undefined).
  { intros Hentry. unfold Manifest.get.
    destruct (String.eqb p "") eqn:E.
    - now apply String.eqb_eq in E.
    - now rewrite Hentry, join_missing. }
  split; [exact Hthrows|].
  intros name ops Hkeys Hcalls. apply Hthrows.
  now apply (manifest_calls_other_keys P _ ops (Manifest.create name) m).
Qed.

End ManifestFacts.

Lemma manifest_round_trip_witness :
  Manifest.get "" Sample.byte_compare (Some "/js/app.js")
    (Manifest.add "" "/js/app.js" Sample.empty_manifest)
  = inr (Manifest.Served "/js/app.js").
Proof.
  refine (proj1 (manifest_round_trip Sample.one_file Sample.constant_hash
                   Sample.byte_compare "console.log(1)" Sample.empty_manifest _ _)).
  - intros content. split; reflexivity.
  - reflexivity.
Defined.

(** C8, as stated, fails in a Laravel project, where the public path is
    ["public"]: [get] returns ["public/js/app.js"]. *)
Lemma manifest_round_trip_public_path :
  Manifest.get "public" Sample.byte_compare (Some "/js/app.js")
    (Manifest.add "public" "/js/app.js" Sample.empty_manifest)
  = inr (Manifest.Served "public/js/app.js")
  /\ Manifest.get "public" Sample.byte_compare (Some "/js/app.js")
       (Manifest.add "public" "/js/app.js" Sample.empty_manifest)
     <> inr (Manifest.Served "/js/app.js").
Proof. split; [reflexivity|discriminate]. Qed.

Lemma get_of_unknown_path_throws_witness :
  Manifest.get "public" Sample.byte_compare (Some "/css/app.css") Sample.empty_manifest
  = inl Manifest.TypeError_path_undefined
  /\ Manifest.get "public" Sample.byte_compare (Some "/css/app.css")
       (Manifest.add "public" "public/js/app.js" Sample.empty_manifest)
     = inl Manifest.TypeError_path_undefined.
Proof.
  split.
  - apply (get_of_unknown_path_throws Sample.one_file Sample.constant_hash
             Sample.byte_compare "public" Sample.empty_manifest "/css/app.css").
    + discriminate.
    + reflexivity.
  - refine (proj2 (get_of_unknown_path_throws Sample.one_file Sample.constant_hash
                     Sample.byte_compare "public" _ "/css/app.css" _)
              None [Add "public/js/app.js"] _ _).
    + discriminate.
    + repeat constructor. vm_compute. discriminate.
    + reflexivity.
Defined.

(** C10, as stated, fails for the empty path: it is falsy, so [get]
    returns the whole manifest instead of failing. *)
Lemma get_of_empty_path_returns_manifest :
  Manifest.entry (Manifest.normalizePath "" "") (Manifest.manifest Sample.empty_manifest)
  = None
  /\ Manifest.get "" Sample.byte_compare (Some "") Sample.empty_manifest
     = inr (Manifest.Entries [])
  /\ Manifest.get "" Sample.byte_compare (Some "") Sample.empty_manifest
     <> inl Manifest.TypeError_path_undefined.
Proof. repeat split; discriminate. Qed.

(** ** The composite method *)

Section RegistrarFacts.
Context `{Host}.

Lemma objects_write_same c f s : objects (write_object c f s) c = f (objects s c).
Proof. unfold write_object. cbn. now rewrite Nat.eqb_refl. Qed.

Lemma objects_write_other c c' f s :
  c' <> c -> objects (write_object c f s) c' = objects s c'.
Proof.
  intros Hne. unfold write_object. cbn.
  now destruct (Nat.eqb_spec c' c).
Qed.

(** The composite method, step by step. *)
Lemma composite_run name c args s :
  ComponentRegistrar.composite name c args s =
  match Component.register (objects s c) with
  | Some f =>
      match call f (VObject c) args (recorded_and_tagged name c s) with
      | Ret _ s2 => Ret VApi (activate c s2)
      | Throw e s2 => Throw e s2
      end
  | None => Ret VApi (activate c (recorded_and_tagged name c s))
  end.
Proof.
  unfold ComponentRegistrar.composite, Components_record, update_object, bind,
    modify, read, ret.
  fold (recorded_and_tagged name c s).
  unfold recorded_and_tagged at 1. rewrite objects_write_same. cbn.
  destruct (Component.register (objects s c)) as [f|]; [|reflexivity].
  fold (recorded_and_tagged name c s).
  destruct (call f (VObject c) args (recorded_and_tagged name c s)); reflexivity.
Qed.

Lemma invoke_composite alias name c args s :
  api s !! alias = Some (Composite name c) ->
  ComponentRegistrar.invoke alias args s = ComponentRegistrar.composite name c args s.
Proof.
  intros Hapi. unfold ComponentRegistrar.invoke, bind, read. now rewrite Hapi.
Qed.

(** A composite method that returns has activated its component. *)
Lemma composite_activates name c args s v s' :
  ComponentRegistrar.composite name c args s = Ret v s' ->
  v = VApi /\ Component.activated (objects s' c) = true.
Proof.
  rewrite composite_run.
  destruct (Component.register (objects s c)) as [f|].
  - destruct (call f (VObject c) args _); [|discriminate].
    intros [= <- <-]. split; [reflexivity|]. unfold activate.
    now rewrite objects_write_same.
  - intros [= <- <-]. split; [reflexivity|]. unfold activate.
    now rewrite objects_write_same.
Qed.

(** C1. Invoking the composite method built for [component] under [name]
    records the component under the alias and tags it with the alias
    (steps 1 and 2, which leave the activated flag alone), then calls the
    component's [register] hook, if there is one, with the arguments of the
    call (step 3), then sets [activated] (step 4) and returns the API
    surface (step 5). The hook is taken to return normally. *)
Theorem composite_method_steps name component args s :
  let s1 := recorded_and_tagged name component s in
  (forall f, Component.register (objects s component) = Some f ->
             returns (call f (VObject component) args s1) = true) ->
  (forall alias, api s !! alias = Some (Composite name component) ->
     ComponentRegistrar.invoke alias args s
     = ComponentRegistrar.composite name component args s)
  /\ recorded s1 !! name = Some component
  /\ Component.caller (objects s1 component) = Some name
  /\ Component.activated (objects s1 component)
     = Component.activated (objects s component)
  /\ exists s2,
       match Component.register (objects s component) with
       | Some f => exists v, call f (VObject component) args s1 = Ret v s2
       | None => s2 = s1
       end
       /\ ComponentRegistrar.composite name component args s
          = Ret VApi (activate component s2)
       /\ Component.activated (objects (activate component s2) component) = true.
Proof.
  intros s1 Hhook. split; [|split; [|split; [|split]]].
  - intros alias Hapi. now apply invoke_composite.
  - subst s1. unfold recorded_and_tagged, write_object, record_alias. cbn.
    apply lookup_insert_eq.
  - subst s1. unfold recorded_and_tagged. now rewrite objects_write_same.
  - subst s1. unfold recorded_and_tagged. now rewrite objects_write_same.
  - rewrite composite_run. fold s1.
    destruct (Component.register (objects s component)) as [f|].
    + specialize (Hhook f eq_refl).
      destruct (call f (VObject component) args s1) as [v s2|e s2];
        [|discriminate].
      exists s2. split; [now exists v|]. split; [reflexivity|].
      unfold activate. now rewrite objects_write_same.
    + exists s1. split; [reflexivity|]. split; [reflexivity|].
      unfold activate. now rewrite objects_write_same.
Qed.


End RegistrarFacts.

(** ** Registration *)

Section RegistrationFacts.
Context `{Host}.

Lemma set_api_same s : set_api (api s) s = s.
Proof. now destruct s. Qed.

Lemma merge_mix_run methods s :
  forEach (fun m : string * Fn =>
             modify (fun s => set_api (<[m.1 := Direct m.2]> (api s)) s))
          methods s
  = Ret tt (set_api (merge_mix methods (api s)) s).
Proof.
  revert s. induction methods as [|m r IH]; intros s.
  - cbn. now rewrite set_api_same.
  - cbn [forEach]. unfold bind, modify at 1. rewrite IH. reflexivity.
Qed.

Lemma merge_mix_lookup methods a alias :
  alias ∉ map fst methods -> merge_mix methods a !! alias = a !! alias.
Proof.
  revert a. induction methods as [|m r IH]; intros a Hnot; [reflexivity|].
  cbn in Hnot. apply not_elem_of_cons in Hnot as [Hne Hr].
  cbn. rewrite IH by assumption. apply lookup_insert_ne. congruence.
Qed.

Lemma registered_api_lookup c methods names a alias :
  alias ∉ map fst methods ->
  alias ∈ names \/ a !! alias = Some (Composite alias c) ->
  registered_api c methods names a !! alias = Some (Composite alias c).
Proof.
  intros Hnot. revert a. induction names as [|n r IH]; intros a Hin.
  - destruct Hin as [Hin|Ha]; [now apply elem_of_nil in Hin|assumption].
  - cbn. apply IH. destruct (decide (alias = n)) as [->|Hne].
    + right. rewrite merge_mix_lookup by assumption. apply lookup_insert_eq.
    + destruct Hin as [Hin|Ha].
      * apply elem_of_cons in Hin as [?|Hin]; [contradiction|now left].
      * right. rewrite merge_mix_lookup by assumption.
        rewrite lookup_insert_ne by congruence. assumption.
Qed.

Lemma merge_mix_bound methods alias :
  alias ∈ map fst methods ->
  exists f, (alias, f) ∈ methods
            /\ forall a, merge_mix methods a !! alias = Some (Direct f).
Proof.
  induction methods as [|[k0 f0] r IH]; intros Hin.
  - now apply elem_of_nil in Hin.
  - destruct (decide (alias ∈ map fst r)) as [Hr|Hr].
    + destruct (IH Hr) as (f & Hf & Hb). exists f.
      split; [now apply elem_of_cons; right|]. intros a. apply Hb.
    + cbn in Hin. apply elem_of_cons in Hin as [->|?]; [|contradiction].
      exists f0. split; [apply elem_of_cons; now left|]. intros a.
      cbn [merge_mix fold_left]. fold (merge_mix r (<[k0 := Direct f0]> a)).
      rewrite merge_mix_lookup by exact Hr. apply lookup_insert_eq.
Qed.

Lemma registered_api_bound c methods names a alias :
  names <> [] ->
  alias ∈ map fst methods ->
  exists f, (alias, f) ∈ methods
            /\ registered_api c methods names a !! alias = Some (Direct f).
Proof.
  intros Hnames Hin. destruct (merge_mix_bound methods alias Hin) as (f & Hf & Hb).
  exists f. split; [exact Hf|]. destruct (exists_last Hnames) as [init [n ->]].
  unfold registered_api. rewrite fold_left_app. cbn [fold_left]. apply Hb.
Qed.

(** The state after the API entry of [register] was written. *)
Lemma register_run c n s :
  ComponentRegistrar.register c n s =
  let merged s' :=
    Ret tt (set_api (merge_mix (mix_methods (objects s' c)) (api s')) s') in
  let s0 := set_api (<[n := Composite n c]> (api s)) s in
  if Component.passive (objects s c) then
    match ComponentRegistrar.composite n c [] s0 with
    | Ret _ s' => merged s'
    | Throw e s' => Throw e s'
    end
  else merged s0.
Proof.
  unfold ComponentRegistrar.register, bind, modify at 1, read. cbn [objects set_api].
  assert (Hmerge : forall s',
    match Component.mix (objects s' c) with
    | Some methods =>
        forEach (fun m : string * Fn =>
                   modify (fun s => set_api (<[m.1 := Direct m.2]> (api s)) s))
                methods
    | None => ret tt
    end s' = Ret tt (set_api (merge_mix (mix_methods (objects s' c)) (api s')) s')).
  { intros s'. unfold mix_methods. destruct (Component.mix (objects s' c)).
    - apply merge_mix_run.
    - cbn. now rewrite set_api_same. }
  destruct (Component.passive (objects s c)).
  - rewrite (invoke_composite n n c) by (cbn; apply lookup_insert_eq).
    destruct (ComponentRegistrar.composite n c [] _) as [v s'|e s']; [|reflexivity].
    exact (Hmerge s').
  - exact (Hmerge (set_api (<[n := Composite n c]> (api s)) s)).
Qed.

(** A component that is not passive is registered without any user code
    being run: only the API surface changes. *)
Lemma forEach_register_idle c names s a :
  Component.passive (objects s c) = false ->
  forEach (ComponentRegistrar.register c) names (set_api a s)
  = Ret tt (set_api (registered_api c (mix_methods (objects s c)) names a) s).
Proof.
  intros Hidle. revert a. induction names as [|n r IH]; intros a; [reflexivity|].
  cbn [forEach]. unfold bind. rewrite register_run. cbn [objects set_api api].
  rewrite Hidle. cbv zeta. exact (IH _).
Qed.

Lemma registerComponent_idle c s :
  Component.passive (objects s c) = false ->
  ComponentRegistrar.registerComponent c s
  = Ret tt (set_api (registered_api c (mix_methods (objects s c))
                       (ComponentRegistrar.names (objects s c)) (api s)) s).
Proof.
  intros Hidle. unfold ComponentRegistrar.registerComponent, bind, read.
  pose proof (forEach_register_idle c (ComponentRegistrar.names (objects s c))
                s (api s) Hidle) as Hrun.
  now rewrite set_api_same in Hrun.
Qed.

Lemma mix_write_object c f s i :
  (forall o, Component.mix (f o) = Component.mix o) ->
  Component.mix (objects (write_object c f s) i) = Component.mix (objects s i).
Proof.
  intros Hf. unfold write_object. cbn. destruct (i =? c)%nat; [apply Hf|reflexivity].
Qed.

(** The composite method leaves the API surface and the [mix] accessors
    alone when the hooks do. *)
Lemma composite_keeps_api name c args :
  calls_keep api_and_mix_kept ->
  stable api_and_mix_kept (ComponentRegistrar.composite name c args).
Proof.
  intros Hkeep s. rewrite composite_run.
  assert (H0 : api_and_mix_kept s (recorded_and_tagged name c s)).
  { split; [reflexivity|]. intros i. unfold recorded_and_tagged.
    now rewrite mix_write_object. }
  assert (Hact : forall s2, api_and_mix_kept s s2 ->
                            api_and_mix_kept s (activate c s2)).
  { intros s2 [Ha Hm]. split; [exact Ha|]. intros i. unfold activate.
    rewrite mix_write_object by reflexivity. apply Hm. }
  destruct (Component.register (objects s c)) as [f|]; [|now apply Hact].
  pose proof (Hkeep f (VObject c) args (recorded_and_tagged name c s)) as [Ha Hm].
  destruct H0 as [Ha0 Hm0].
  assert (Hs2 : api_and_mix_kept s
                  (final_state (call f (VObject c) args (recorded_and_tagged name c s)))).
  { split; [congruence|]. intros i. now rewrite Hm, Hm0. }
  destruct (call f (VObject c) args _); cbn in *; [now apply Hact|assumption].
Qed.

Lemma register_frame c n s s' :
  calls_keep api_and_mix_kept ->
  ComponentRegistrar.register c n s = Ret tt s' ->
  api s' = merge_mix (mix_methods (objects s c)) (<[n := Composite n c]> (api s))
  /\ forall i, Component.mix (objects s' i) = Component.mix (objects s i).
Proof.
  intros Hkeep. rewrite register_run. cbv zeta.
  destruct (Component.passive (objects s c)).
  - pose proof (composite_keeps_api n c [] Hkeep
                  (set_api (<[n := Composite n c]> (api s)) s)) as [Ha Hm].
    destruct (ComponentRegistrar.composite n c [] _) as [v s2|e s2]; [|discriminate].
    cbn in Ha, Hm. intros [= <-]. cbn. split.
    + unfold mix_methods. now rewrite Hm, Ha.
    + exact Hm.
  - intros [= <-]. cbn. split; reflexivity.
Qed.

Lemma forEach_register_frame c names s s' :
  calls_keep api_and_mix_kept ->
  forEach (ComponentRegistrar.register c) names s = Ret tt s' ->
  api s' = registered_api c (mix_methods (objects s c)) names (api s)
  /\ forall i, Component.mix (objects s' i) = Component.mix (objects s i).
Proof.
  intros Hkeep. revert s. induction names as [|n r IH]; intros s.
  - intros [= <-]. split; reflexivity.
  - cbn [forEach]. unfold bind.
    destruct (ComponentRegistrar.register c n s) as [[] s1|e s1] eqn:E; [|discriminate].
    intros Hrest. apply (register_frame _ _ _ _ Hkeep) in E as [Ha Hm].
    apply IH in Hrest as [Ha' Hm']. split.
    + rewrite Ha', Ha. unfold mix_methods. now rewrite Hm.
    + intros i. now rewrite Hm', Hm.
Qed.

(** Registration keeps a component activated, and activates a passive
    one. *)
Lemma register_activated c n s s' :
  Component.passive (objects s c) = true
  \/ Component.activated (objects s c) = true ->
  ComponentRegistrar.register c n s = Ret tt s' ->
  Component.activated (objects s' c) = true.
Proof.
  intros Hpre. rewrite register_run. cbv zeta.
  destruct (Component.passive (objects s c)) eqn:P.
  - destruct (ComponentRegistrar.composite n c [] _) as [v s2|e s2] eqn:E;
      [|discriminate].
    apply composite_activates in E as [_ Hact]. now intros [= <-].
  - destruct Hpre as [?|Hact]; [discriminate|]. now intros [= <-].
Qed.

Lemma forEach_register_activated c names s s' :
  Component.activated (objects s c) = true ->
  forEach (ComponentRegistrar.register c) names s = Ret tt s' ->
  Component.activated (objects s' c) = true.
Proof.
  revert s. induction names as [|n r IH]; intros s Hact.
  - now intros [= <-].
  - cbn [forEach]. unfold bind.
    destruct (ComponentRegistrar.register c n s) as [[] s1|e s1] eqn:E; [|discriminate].
    apply IH. eapply register_activated; [right; exact Hact|exact E].
Qed.

Lemma registerComponent_passive c s s' :
  Component.passive (objects s c) = true ->
  ComponentRegistrar.names (objects s c) <> [] ->
  ComponentRegistrar.registerComponent c s = Ret tt s' ->
  Component.activated (objects s' c) = true.
Proof.
  intros Hpassive Hnames. unfold ComponentRegistrar.registerComponent, bind, read.
  destruct (ComponentRegistrar.names (objects s c)) as [|n r]; [contradiction|].
  cbn [forEach]. unfold bind.
  destruct (ComponentRegistrar.register c n s) as [[] s1|e s1] eqn:E; [|discriminate].
  apply forEach_register_activated.
  eapply register_activated; [left; exact Hpassive|exact E].
Qed.

(** With hooks that return, registration returns. *)
Lemma composite_returns name c args s :
  calls_return -> returns (ComponentRegistrar.composite name c args s) = true.
Proof.
  intros Hret. rewrite composite_run.
  destruct (Component.register (objects s c)) as [f|]; [|reflexivity].
  specialize (Hret f (VObject c) args (recorded_and_tagged name c s)).
  now destruct (call f (VObject c) args _).
Qed.

Lemma registerComponent_returns c s :
  calls_return -> returns (ComponentRegistrar.registerComponent c s) = true.
Proof.
  intros Hret. unfold ComponentRegistrar.registerComponent, bind, read.
  generalize (ComponentRegistrar.names (objects s c)). intros names.
  revert s. induction names as [|n r IH]; intros s; [reflexivity|].
  cbn [forEach]. unfold bind. rewrite register_run. cbv zeta.
  destruct (Component.passive (objects s c)); [|apply IH].
  pose proof (composite_returns n c [] (set_api (<[n := Composite n c]> (api s)) s) Hret).
  destruct (ComponentRegistrar.composite n c [] _); [apply IH|discriminate].
Qed.

(** [install]: instantiate, register, subscribe to the two standing
    events. *)
Lemma install_run d s :
  ComponentRegistrar.install d s =
  match ComponentRegistrar.registerComponent (component_ref d s) (provisioned d s) with
  | Ret _ s' =>
      Ret VApi
        (set_events
           (events s'
              ++ [("internal:gather-dependencies", OnGatherDependencies (component_ref d s))]
              ++ [("init", OnInit (component_ref d s))]) s')
  | Throw e s' => Throw e s'
  end.
Proof.
  unfold ComponentRegistrar.install, bind.
  assert (Hstart :
    match d with
    | ComponentRegistrar.Class proto => new_object proto
    | ComponentRegistrar.Instance c => ret c
    end s = Ret (component_ref d s) (provisioned d s)) by (now destruct d).
  rewrite Hstart.
  destruct (ComponentRegistrar.registerComponent _ _) as [[] s'|e s']; [|reflexivity].
  unfold Dispatcher.listen, modify, ret. cbn. now rewrite <- app_assoc.
Qed.

Lemma provisioned_object d s :
  objects (provisioned d s) (component_ref d s) = component_of d s.
Proof.
  destruct d as [proto|c]; [|reflexivity]. cbn. now rewrite Nat.eqb_refl.
Qed.

End RegistrationFacts.

(** ** Aliases and activation *)

Section InstallFacts.
Context `{Host}.

Lemma install_api d s v s' :
  calls_keep api_and_mix_kept ->
  ComponentRegistrar.install d s = Ret v s' ->
  api s' = registered_api (component_ref d s) (mix_methods (component_of d s))
             (ComponentRegistrar.names (component_of d s)) (api (provisioned d s)).
Proof.
  intros Hkeep. rewrite install_run.
  destruct (ComponentRegistrar.registerComponent _ _) as [[] s0|e s0] eqn:E;
    [|discriminate].
  intros [= _ <-]. cbn [api set_events].
  unfold ComponentRegistrar.registerComponent, bind, read in E.
  apply (forEach_register_frame _ _ _ _ Hkeep) in E as [Ha _].
  now rewrite provisioned_object in Ha.
Qed.

Lemma install_binds_alias d s v s' alias :
  calls_keep api_and_mix_kept ->
  ComponentRegistrar.install d s = Ret v s' ->
  alias ∈ ComponentRegistrar.names (component_of d s) ->
  alias ∉ mix_keys (component_of d s) ->
  api s' !! alias = Some (Composite alias (component_ref d s)).
Proof.
  intros Hkeep Hinstall Hin Hnot.
  rewrite (install_api _ _ _ _ Hkeep Hinstall).
  apply registered_api_lookup; [exact Hnot|now left].
Qed.

(** C3. Two distinct components are installed one after the other, both
    answering to [alias] (user code is taken to leave the API surface and
    the [mix] accessors alone). Afterwards the alias is not bound to the
    composite method of the first component. When the [mix()] of the
    second component has no method of that name, the alias is bound to
    the composite method of the second component: invoking it records the
    second component under the alias and calls the [register] hook of the
    second component only. When the [mix()] of the second component has a
    method of that name, the alias is bound to that method: invoking it
    calls the method and nothing else, so no [register] hook is run and
    nothing is recorded. *)
Theorem alias_last_write_wins d1 d2 alias s v1 s1 v2 s2 :
  let c1 := component_ref d1 s in
  let c2 := component_ref d2 s1 in
  calls_keep api_and_mix_kept ->
  ComponentRegistrar.install d1 s = Ret v1 s1 ->
  ComponentRegistrar.install d2 s1 = Ret v2 s2 ->
  c1 <> c2 ->
  alias ∈ ComponentRegistrar.names (component_of d1 s) ->
  alias ∈ ComponentRegistrar.names (component_of d2 s1) ->
  (alias ∉ mix_keys (component_of d1 s) -> api s1 !! alias = Some (Composite alias c1))
  /\ api s2 !! alias <> Some (Composite alias c1)
  /\ (alias ∉ mix_keys (component_of d2 s1) ->
      api s2 !! alias = Some (Composite alias c2)
      /\ forall args,
           ComponentRegistrar.invoke alias args s2
           = match Component.register (objects s2 c2) with
             | Some f =>
                 match call f (VObject c2) args (recorded_and_tagged alias c2 s2) with
                 | Ret _ s3 => Ret VApi (activate c2 s3)
                 | Throw e s3 => Throw e s3
                 end
             | None => Ret VApi (activate c2 (recorded_and_tagged alias c2 s2))
             end
           /\ recorded (recorded_and_tagged alias c2 s2) !! alias = Some c2)
  /\ (alias ∈ mix_keys (component_of d2 s1) ->
      exists f,
        (alias, f) ∈ mix_methods (component_of d2 s1)
        /\ api s2 !! alias = Some (Direct f)
        /\ forall args, ComponentRegistrar.invoke alias args s2 = call f VApi args s2).
Proof.
  intros c1 c2 Hkeep H1 H2 Hne Hin1 Hin2.
  assert (Hnames : ComponentRegistrar.names (component_of d2 s1) <> []).
  { intros E. rewrite E in Hin2. now apply elem_of_nil in Hin2. }
  assert (Hplain : alias ∉ mix_keys (component_of d2 s1) ->
                   api s2 !! alias = Some (Composite alias c2))
    by (now apply (install_binds_alias d2 s1 v2 s2 alias Hkeep H2)).
  assert (Hmix : alias ∈ mix_keys (component_of d2 s1) ->
                 exists f, (alias, f) ∈ mix_methods (component_of d2 s1)
                           /\ api s2 !! alias = Some (Direct f)).
  { intros Hin. rewrite (install_api _ _ _ _ Hkeep H2).
    now apply registered_api_bound. }
  split; [|split; [|split]].
  - intros Hnot1. now apply (install_binds_alias d1 s v1 s1 alias Hkeep H1).
  - destruct (decide (alias ∈ mix_keys (component_of d2 s1))) as [Hin|Hnot].
    + destruct (Hmix Hin) as (f & _ & Hbound). now rewrite Hbound.
    + rewrite (Hplain Hnot). intros [= E]. now apply Hne.
  - intros Hnot. pose proof (Hplain Hnot) as Hbound. split; [exact Hbound|].
    intros args. split.
    + rewrite (invoke_composite alias alias c2 args s2 Hbound). apply composite_run.
    + unfold recorded_and_tagged, write_object, record_alias. cbn.
      apply lookup_insert_eq.
  - intros Hin. destruct (Hmix Hin) as (f & Hf & Hbound). exists f.
    split; [exact Hf|]. split; [exact Hbound|]. intros args.
    unfold ComponentRegistrar.invoke, bind, read. now rewrite Hbound.
Qed.

(** C4. A passive component (with at least one alias) is activated when
    [install] returns, and [install] does return when the hooks do. A
    component that is not passive and not activated is still not activated
    when [install] returns; each of its aliases is bound to its composite
    method; invoking one of them activates it. *)
Theorem activation_on_install d s :
  let c := component_ref d s in
  let o := component_of d s in
  ComponentRegistrar.names o <> [] ->
  (Component.passive o = true ->
     (forall v s', ComponentRegistrar.install d s = Ret v s' ->
                   Component.activated (objects s' c) = true)
     /\ (calls_return -> returns (ComponentRegistrar.install d s) = true))
  /\ (Component.passive o = false -> Component.activated o = false ->
      exists s',
        ComponentRegistrar.install d s = Ret VApi s'
        /\ Component.activated (objects s' c) = false
        /\ (forall alias,
              alias ∈ ComponentRegistrar.names o -> alias ∉ mix_keys o ->
              api s' !! alias = Some (Composite alias c))
        /\ (forall alias args v s'',
              ComponentRegistrar.composite alias c args s' = Ret v s'' ->
              Component.activated (objects s'' c) = true)
        /\ (calls_return -> forall alias args,
              returns (ComponentRegistrar.composite alias c args s') = true)).
Proof.
  intros c o Hnames. split.
  - intros Hpassive. split.
    + intros v s'. rewrite install_run. fold c.
      destruct (ComponentRegistrar.registerComponent c (provisioned d s))
        as [[] s0|e s0] eqn:E; [|discriminate].
      intros [= _ <-]. cbn [objects set_events].
      apply (registerComponent_passive c (provisioned d s)); try assumption.
      all: subst c; now rewrite provisioned_object.
    + intros Hret. rewrite install_run.
      pose proof (registerComponent_returns (component_ref d s) (provisioned d s) Hret).
      now destruct (ComponentRegistrar.registerComponent _ _).
  - intros Hidle Hoff. rewrite install_run. fold c.
    rewrite registerComponent_idle by (subst c; now rewrite provisioned_object).
    eexists. split; [reflexivity|]. cbn [objects api set_events set_api].
    subst c. rewrite !provisioned_object. fold o.
    split; [exact Hoff|]. split; [|split].
    + intros alias Hin Hnot. apply registered_api_lookup; [exact Hnot|now left].
    + intros alias args v s'' Hcall. now apply composite_activates in Hcall.
    + intros Hret alias args. now apply composite_returns.
Qed.

End InstallFacts.

(** ** What a method leaves unchanged *)

Section Stability.
Context `{Host}.
Variable R : State -> State -> Prop.
Hypothesis R_refl : forall s, R s s.
Hypothesis R_trans : forall s1 s2 s3, R s1 s2 -> R s2 s3 -> R s1 s3.

Lemma stable_ret {A} (a : A) : stable R (ret a).
Proof. intros s. apply R_refl. Qed.

Lemma stable_throw {A} e : stable R (@throw A e).
Proof. intros s. apply R_refl. Qed.

Lemma stable_modify f : (forall s, R s (f s)) -> stable R (modify f).
Proof. intros Hf s. apply Hf. Qed.

Lemma stable_bind {A B} (m : M A) (k : A -> M B) :
  stable R m -> (forall a, stable R (k a)) -> stable R (bind m k).
Proof.
  intros Hm Hk s. unfold bind. specialize (Hm s).
  destruct (m s) as [a s'|e s']; cbn in *; [|assumption].
  eapply R_trans; [exact Hm|apply Hk].
Qed.

Lemma stable_read {A B} (f : State -> A) (k : A -> M B) :
  (forall a, stable R (k a)) -> stable R (bind (read f) k).
Proof. intros Hk. apply stable_bind; [intros s; apply R_refl|exact Hk]. Qed.

Hypothesis R_queue : forall v s, R s (set_queue v s).
Hypothesis R_babelConfig : forall v s, R s (set_babelConfig v s).
Hypothesis R_events : forall v s, R s (set_events v s).
Hypothesis R_arrays : forall v s, R s (set_arrays v s).
Hypothesis R_effects : forall v s, R s (set_effects v s).
Hypothesis R_calls : calls_keep R.

Lemma stable_optional_hook get c args :
  stable R (ComponentRegistrar.optional_hook get c args).
Proof.
  unfold ComponentRegistrar.optional_hook. apply stable_read. intros [f|].
  - apply R_calls.
  - apply stable_ret.
Qed.

Lemma stable_listen event h : stable R (Dispatcher.listen event h).
Proof. apply stable_modify. intros s. apply R_events. Qed.

Lemma stable_push_new target items : stable R (ComponentRegistrar.push_new target items).
Proof.
  unfold ComponentRegistrar.push_new. destruct (truthy items); [|apply stable_ret].
  destruct target; try apply stable_throw.
  apply stable_modify. intros s. apply R_arrays.
Qed.

(** The listeners change the state through the hooks and through the
    queue, the Babel configuration, the dispatcher and the payload. *)
Lemma stable_run_listener h data : stable R (ComponentRegistrar.run_listener h data).
Proof.
  destruct h as [c|c|c|c|c|c| |f]; cbn [ComponentRegistrar.run_listener].
  - apply stable_read. intros [|]; [apply stable_ret|].
    apply stable_read. intros [f|]; [|apply stable_ret].
    apply stable_bind; [apply R_calls|]. intros deps.
    apply stable_read. intros reload.
    apply stable_bind; [|intros; apply stable_ret].
    apply stable_modify. intros s. apply R_queue.
  - apply stable_read. intros [|]; [apply stable_ret|].
    apply stable_bind; [apply stable_optional_hook|]. intros _.
    apply stable_read. intros babel. apply stable_bind.
    + destruct babel as [f|]; [|apply stable_ret].
      unfold ComponentRegistrar.applyBabelConfig.
      apply stable_read. intros old.
      apply stable_bind; [apply R_calls|]. intros v.
      apply stable_modify. intros s. apply R_babelConfig.
    + intros _. repeat (apply stable_bind; [apply stable_listen|intros _]).
      apply stable_ret.
  - apply stable_optional_hook.
  - apply stable_read. intros [f|]; [|apply stable_ret].
    apply stable_bind; [|intros; apply stable_ret].
    unfold ComponentRegistrar.applyRules.
    apply stable_bind; [apply R_calls|]. intros v. apply stable_push_new.
  - apply stable_read. intros [f|]; [|apply stable_ret].
    apply stable_bind; [|intros; apply stable_ret].
    unfold ComponentRegistrar.applyPlugins.
    apply stable_bind; [apply R_calls|]. intros v. apply stable_push_new.
  - apply stable_optional_hook.
  - apply stable_bind; [|intros; apply stable_ret].
    apply stable_modify. intros s. apply R_effects.
  - apply R_calls.
Qed.

Lemma stable_fire event data :
  stable R (Dispatcher.fire ComponentRegistrar.run_listener event data).
Proof.
  intros s. unfold Dispatcher.fire.
  generalize (Dispatcher.handlers event s). intros hs. revert s.
  induction hs as [|h r IH]; intros s; [apply R_refl|].
  cbn [Dispatcher.run_all].
  apply (stable_bind (ComponentRegistrar.run_listener h data)
           (fun _ => Dispatcher.run_all ComponentRegistrar.run_listener r data)).
  - apply stable_run_listener.
  - intros _. exact IH.
Qed.

(** The function that [dispatch] runs while the group is current. *)
Lemma stable_dispatch_body event data :
  stable R (bind match data with
                 | VFunction f => call f VUndefined []
                 | _ => ret data
                 end
              (fun d => Dispatcher.fire ComponentRegistrar.run_listener event d)).
Proof.
  apply stable_bind; [|intros d; apply stable_fire].
  destruct data; try apply stable_ret. apply R_calls.
Qed.

Hypothesis R_current : forall v s, R s (set_current v s).
Hypothesis R_global_group : forall v s, R s (set_global_group v s).

Lemma stable_pushCurrent g : stable R (Mix.pushCurrent g).
Proof.
  unfold Mix.pushCurrent, Mix.BuildGroup_makeCurrent.
  apply stable_bind; [apply stable_modify; intros s; apply R_global_group|].
  intros _. apply stable_modify. intros s. apply R_current.
Qed.

Lemma stable_popCurrent : stable R Mix.popCurrent.
Proof.
  intros s. unfold Mix.popCurrent.
  destruct (length (current s) =? 1)%nat; [apply R_refl|].
  destruct (Mix.currentGroup _) as [g|]; cbn.
  - eapply R_trans; [apply R_current|apply R_global_group].
  - apply R_current.
Qed.

Lemma stable_whileCurrent {A} g (fn : M A) :
  stable R fn -> stable R (Mix.BuildGroup_whileCurrent g fn).
Proof.
  intros Hfn s. unfold Mix.BuildGroup_whileCurrent.
  pose proof (stable_pushCurrent g s) as Hpush.
  destruct (Mix.pushCurrent g s) as [[] s1|e s1]; cbn in Hpush; [|exact Hpush].
  specialize (Hfn s1).
  assert (Hpop : forall s2, R s2 (final_state (Mix.popCurrent s2)))
    by apply stable_popCurrent.
  destruct (fn s1) as [a s2|e s2]; cbn in Hfn |- *; specialize (Hpop s2);
    destruct (Mix.popCurrent s2); cbn in Hpop |- *; eauto.
Qed.

Lemma stable_dispatch event data : stable R (Mix.dispatch event data).
Proof.
  unfold Mix.dispatch. apply stable_read. intros [g|]; [|apply stable_throw].
  apply stable_whileCurrent. apply stable_dispatch_body.
Qed.

End Stability.

(** ** The stack of current build groups *)

Lemma pushCurrent_run g s :
  Mix.pushCurrent g s
  = Ret tt (set_current (current s ++ [g]) (set_global_group (Some g) s)).
Proof. reflexivity. Qed.

Lemma popCurrent_at_root s : length (current s) = 1 -> Mix.popCurrent s = Ret tt s.
Proof. intros Hlen. unfold Mix.popCurrent. now rewrite Hlen. Qed.

(** Popping a stack of at least two groups removes the top one and
    publishes the group below. *)
Lemma popCurrent_above_root s l below top :
  current s = l ++ [below; top] ->
  Mix.popCurrent s
  = Ret tt (set_global_group (Some below) (set_current (l ++ [below]) s)).
Proof.
  intros Hcur. unfold Mix.popCurrent. rewrite Hcur.
  replace (length (l ++ [below; top]) =? 1)%nat with false
    by (symmetry; apply Nat.eqb_neq; rewrite length_app; cbn; lia).
  replace (l ++ [below; top]) with ((l ++ [below]) ++ [top])
    by (now rewrite <- app_assoc).
  rewrite removelast_last. unfold Mix.currentGroup. cbn [current set_current].
  now rewrite last_snoc.
Qed.

Lemma stack_ops_keep_root ops : forall s root rest,
  current s = root :: rest ->
  exists s' rest',
    forEach run_stack_op ops s = Ret tt s' /\ current s' = root :: rest'.
Proof.
  induction ops as [|op ops IH]; intros s root rest Hcur.
  - exists s, rest. now split.
  - cbn [forEach]. unfold bind. destruct op as [g|]; cbn [run_stack_op].
    + rewrite pushCurrent_run.
      apply (IH _ root (rest ++ [g])). cbn. now rewrite Hcur.
    + destruct rest as [|x rest1].
      * rewrite popCurrent_at_root by (now rewrite Hcur). now apply (IH s root []).
      * destruct (exists_last (l := x :: rest1)) as [mid [top Hlast]]; [discriminate|].
        destruct (exists_last (l := root :: mid)) as [l [below Hbelow]]; [discriminate|].
        assert (Hshape : current s = l ++ [below; top]).
        { rewrite Hcur, Hlast, app_comm_cons, Hbelow, <- app_assoc. reflexivity. }
        rewrite (popCurrent_above_root s l below top Hshape).
        apply (IH _ root mid). cbn. now rewrite <- Hbelow.
Qed.

(** C6. With only the root scope on the stack, [popCurrent] changes
    nothing and [currentGroup] is still the root; and whatever pushes and
    pops follow, they all return and leave the root at the bottom of the
    stack. *)
Theorem root_scope_is_permanent s root :
  current s = [root] ->
  Mix.popCurrent s = Ret tt s
  /\ Mix.currentGroup (final_state (Mix.popCurrent s)) = Some root
  /\ forall ops, exists s' rest,
       forEach run_stack_op ops s = Ret tt s' /\ current s' = root :: rest.
Proof.
  intros Hcur.
  assert (Hpop : Mix.popCurrent s = Ret tt s)
    by (apply popCurrent_at_root; now rewrite Hcur).
  split; [exact Hpop|]. split.
  - rewrite Hpop. unfold Mix.currentGroup. cbn. now rewrite Hcur.
  - intros ops. now apply (stack_ops_keep_root ops s root []).
Qed.

(** [whileCurrent] around a function that leaves the stack as it found
    it: the group pushed is popped again and the group below it is
    published, on both exits. *)
Lemma whileCurrent_run {A} (group : BuildGroup) (fn : M A) s l below :
  let s1 := set_current (current s ++ [group]) (set_global_group (Some group) s) in
  let restored s2 := set_global_group (Some below) (set_current (current s) s2) in
  current s = l ++ [below] ->
  current (final_state (fn s1)) = current s1 ->
  Mix.BuildGroup_whileCurrent group fn s
  = match fn s1 with
    | Ret a s2 => Ret a (restored s2)
    | Throw e s2 => Throw e (restored s2)
    end.
Proof.
  intros s1 restored Hbelow Hfn. unfold Mix.BuildGroup_whileCurrent.
  rewrite pushCurrent_run. fold s1.
  assert (Hpop : forall s2, current s2 = current s1 ->
                            Mix.popCurrent s2 = Ret tt (restored s2)).
  { intros s2 Hs2. subst restored. cbv beta.
    rewrite (popCurrent_above_root s2 l below group).
    - now rewrite Hbelow.
    - rewrite Hs2. subst s1. cbn. rewrite Hbelow, <- app_assoc. reflexivity. }
  destruct (fn s1) as [a s2|e s2]; cbn [final_state] in Hfn;
    unfold Mix.finally_pop; now rewrite (Hpop s2 Hfn).
Qed.

(** C7. [whileCurrent] runs [fn] with [group] current and published, and
    [popCurrent] runs on the state [fn] leaves, both when [fn] returns and
    when it throws. When [fn] leaves the stack as it found it, the scope
    that was current before is current again afterwards, and published
    again, on both exits; the result or the exception of [fn] is passed
    on. *)
Theorem whileCurrent_restores {A} (group : BuildGroup) (fn : M A) s :
  let s1 := final_state (Mix.pushCurrent group s) in
  let r := Mix.BuildGroup_whileCurrent group fn s in
  (Mix.pushCurrent group s = Ret tt s1
   /\ Mix.currentGroup s1 = Some group
   /\ global_group s1 = Some group
   /\ r = Mix.finally_pop (fn s1)
   /\ final_state r = final_state (Mix.popCurrent (final_state (fn s1))))
  /\ (current s <> [] ->
      current (final_state (fn s1)) = current s1 ->
      current (final_state r) = current s
      /\ Mix.currentGroup (final_state r) = Mix.currentGroup s
      /\ global_group (final_state r) = Mix.currentGroup s
      /\ (forall a s2, fn s1 = Ret a s2 -> exists s3, r = Ret a s3)
      /\ (forall e s2, fn s1 = Throw e s2 -> exists s3, r = Throw e s3)).
Proof.
  intros s1 r. subst s1 r. rewrite pushCurrent_run in *.
  cbn [final_state] in *.
  assert (Hrun : Mix.BuildGroup_whileCurrent group fn s
                 = Mix.finally_pop
                     (fn (set_current (current s ++ [group])
                            (set_global_group (Some group) s))))
    by reflexivity.
  split.
  - split; [reflexivity|].
    split; [unfold Mix.currentGroup; cbn; apply last_snoc|].
    split; [reflexivity|]. split; [exact Hrun|].
    rewrite Hrun. unfold Mix.finally_pop.
    destruct (fn _) as [a s2|e s2]; cbn [final_state];
      now destruct (Mix.popCurrent s2).
  - intros Hne Hfn.
    destruct (exists_last Hne) as [l [below Hbelow]].
    rewrite (whileCurrent_run group fn s l below Hbelow Hfn).
    assert (Hcurrent : Mix.currentGroup s = Some below)
      by (unfold Mix.currentGroup; rewrite Hbelow; apply last_snoc).
    destruct (fn _) as [a s2|e s2]; cbn [final_state].
    + repeat split; try easy.
      intros a' s2' [= <- <-]. eauto.
    + repeat split; try easy.
      intros e' s2' [= <- <-]. eauto.
Qed.

(** [dispatch] fires the event with the current group pushed once more,
    and leaves the stack as it found it when the handlers do. *)
Lemma dispatch_restores `{Host} event data s :
  calls_keep (same current) ->
  current s <> [] ->
  current (final_state (Mix.dispatch event data s)) = current s.
Proof.
  intros Hkeep Hne. unfold Mix.dispatch. unfold bind at 1, read.
  destruct (exists_last Hne) as [l [g Hg]].
  assert (Hcur : Mix.currentGroup s = Some g)
    by (unfold Mix.currentGroup; rewrite Hg; apply last_snoc).
  rewrite Hcur. set (body := bind _ _).
  assert (Hfn : stable (same current) body)
    by (apply (stable_dispatch_body (same current)); try easy;
        unfold same; congruence).
  rewrite (whileCurrent_run g body s l g Hg (Hfn _)).
  destruct (body _); reflexivity.
Qed.

(** ** The lifecycle *)

Section LifecycleFacts.
Context `{Host}.

Lemma all_emit (f : BuildGroup -> M Value) l : forall s ys s',
  Mix.Promise_all_map f l s = Ret ys s' ->
  Forall2 (fun g y => exists s1 s2, f g s1 = Ret y s2) l ys.
Proof.
  induction l as [|g r IH]; intros s ys s'.
  - intros [= <- _]. constructor.
  - cbn [Mix.Promise_all_map].
    destruct (f g s) as [y s1|e s1] eqn:E; [|discriminate].
    destruct (Mix.Promise_all_map f r s1) as [ys1 s2|e s2] eqn:Er; [|discriminate].
    intros [= <- _]. constructor; [eauto|]. eapply IH. exact Er.
Qed.

Lemma all_return (f : BuildGroup -> M Value) l :
  (forall g s, returns (f g s) = true) ->
  forall s, returns (Mix.Promise_all_map f l s) = true.
Proof.
  intros Hf. induction l as [|g r IH]; intros s; [reflexivity|].
  cbn [Mix.Promise_all_map]. specialize (Hf g s).
  destruct (f g s) as [y s1|e s1]; [|discriminate].
  specialize (IH s1). now destruct (Mix.Promise_all_map f r s1).
Qed.

(** The calls under [Promise.all] return together exactly when each
    scope, taken in turn, emits its configuration. *)
Lemma all_emitted_in_turn gs : forall s0 configs s',
  Mix.Promise_all_map group_config gs s0 = Ret configs s'
  <-> emitted_in_turn gs s0 configs s'.
Proof.
  induction gs as [|g r IH]; intros s0 configs s'.
  - cbn. unfold ret. destruct configs; split; try easy; try discriminate.
    + now intros [= <-].
    + now intros ->.
  - cbn [Mix.Promise_all_map emitted_in_turn].
    destruct (group_config g s0) as [y s1|e s1] eqn:E.
    + destruct configs as [|c cs].
      * split; [|easy]. now destruct (Mix.Promise_all_map group_config r s1).
      * split.
        -- destruct (Mix.Promise_all_map group_config r s1) as [ys s2|e s2] eqn:Er;
             [|discriminate].
           intros [= <- <- <-]. exists s1. split; [reflexivity|]. now apply IH.
        -- intros (s1' & [= <- <-] & Hrest). apply IH in Hrest. now rewrite Hrest.
    + split; [discriminate|]. destruct configs; [easy|]. now intros (s1' & [= ] & _).
Qed.

(** Every call is made: after a rejection the scopes that follow still
    emit, and the rejection is what is reported. *)
Lemma all_called_after_rejection (f : BuildGroup -> M Value) g rest s e s1 :
  f g s = Throw e s1 ->
  Mix.Promise_all_map f (g :: rest) s
  = Throw e (final_state (Mix.Promise_all_map f rest s1)).
Proof. intros Hf. cbn [Mix.Promise_all_map]. now rewrite Hf. Qed.

(** The first [boot] of an instance. *)
Lemma boot_run s :
  booted s = false ->
  groups s <> [] ->
  exists s_b,
    Mix.boot s = Ret tt s_b
    /\ booted s_b = true
    /\ groups s_b = groups s
    /\ effects s_b = effects s ++ [DotenvConfig]
    /\ events s_b = events s ++ [("init", OnInitHotRecord)]
    /\ global_Mix s_b = true
    /\ global_group s_b = head (groups s)
    /\ publicPath s_b = (if artisan_exists then "public" else publicPath s).
Proof.
  intros Hboot Hgroups. unfold Mix.boot, bind, read. rewrite Hboot.
  unfold Mix.sees. cbn [String.eqb Ascii.eqb Bool.eqb].
  destruct (groups s) as [|g rest] eqn:Eg; [contradiction|].
  destruct artisan_exists; cbn; rewrite Eg; cbn; eexists; repeat split;
    cbn; now rewrite ?Eg.
Qed.

Lemma boot_again s : booted s = true -> Mix.boot s = Ret tt s.
Proof. intros Hboot. unfold Mix.boot, bind, read. now rewrite Hboot. Qed.

(** [build], with the state in which the configurations are emitted. *)
Lemma build_run s :
  groups s <> [] ->
  exists s0,
    Mix.build s = Mix.Promise_all_map group_config (Mix.buildableGroups s) s0
    /\ booted s0 = true
    /\ groups s0 = groups s
    /\ (booted s = true -> s0 = s)
    /\ (booted s = false ->
        Mix.boot (set_effects (effects s ++ [ConsoleWarn Mix.not_set_up_warning]) s)
        = Ret tt s0
        /\ effects s0
           = effects s ++ [ConsoleWarn Mix.not_set_up_warning; DotenvConfig]
        /\ events s0 = events s ++ [("init", OnInitHotRecord)]).
Proof.
  intros Hgroups. unfold Mix.build, bind at 1, read at 1.
  destruct (booted s) eqn:Hboot.
  - exists s. repeat split; try easy.
  - destruct (boot_run
                (set_effects (effects s ++ [ConsoleWarn Mix.not_set_up_warning]) s)
                Hboot Hgroups)
      as (s0 & Hrun & Hb & Hg & He & Hev & _).
    exists s0. unfold bind at 1, bind at 1, Mix.effect, modify. rewrite Hrun.
    unfold bind, read, Mix.buildableGroups. rewrite Hg. cbn [groups set_effects].
    repeat split; try easy.
    rewrite He. cbn. now rewrite <- app_assoc.
Qed.

(** C5. When [build] returns, it returns one configuration for each
    buildable scope and none for the others, in the order in which the
    scopes were declared; and it does return when every buildable scope
    emits its configuration. *)
Theorem build_one_config_per_buildable_scope s :
  groups s <> [] ->
  (forall configs s',
     Mix.build s = Ret configs s' ->
     Forall2 emitted (filter (fun g => shouldBeBuilt g) (groups s)) configs)
  /\ (configs_return ->
      exists configs s',
        Mix.build s = Ret configs s'
        /\ Forall2 emitted (filter (fun g => shouldBeBuilt g) (groups s)) configs
        /\ length configs = length (filter (fun g => shouldBeBuilt g) (groups s))).
Proof.
  intros Hgroups. destruct (build_run s Hgroups) as (s0 & Hrun & _).
  assert (Hemit : forall configs s',
            Mix.build s = Ret configs s' ->
            Forall2 emitted (filter (fun g => shouldBeBuilt g) (groups s)) configs).
  { intros configs s'. rewrite Hrun. apply all_emit. }
  split; [exact Hemit|].
  intros Hret. pose proof (all_return group_config (Mix.buildableGroups s) Hret s0) as Hr.
  rewrite <- Hrun in Hr.
  destruct (Mix.build s) as [configs s'|e s'] eqn:E; [|discriminate].
  exists configs, s'. split; [reflexivity|]. split; [now apply (Hemit configs s')|].
  symmetry. eapply Forall2_length. now apply (Hemit configs s').
Qed.

(** C9. Called before [boot], [build] warns, boots, and then goes on
    from the booted state; called after [boot], it goes on from the state
    it was called in: no warning, no second boot. Going on, it returns
    exactly the configurations that the buildable scopes, taken in the
    order of their declaration, emit from that state; it does return, one
    configuration per buildable scope, when the scopes emit theirs. *)
Theorem build_boots_lazily s :
  groups s <> [] ->
  exists s0,
    (booted s = false ->
     Mix.boot (set_effects (effects s ++ [ConsoleWarn Mix.not_set_up_warning]) s)
     = Ret tt s0
     /\ effects s0 = effects s ++ [ConsoleWarn Mix.not_set_up_warning; DotenvConfig])
    /\ (booted s = true -> s0 = s)
    /\ booted s0 = true
    /\ (forall configs s',
          Mix.build s = Ret configs s'
          <-> emitted_in_turn (filter (fun g => shouldBeBuilt g) (groups s)) s0
                configs s')
    /\ (configs_return ->
        exists configs s',
          Mix.build s = Ret configs s'
          /\ length configs = length (filter (fun g => shouldBeBuilt g) (groups s))).
Proof.
  intros Hgroups.
  destruct (build_run s Hgroups) as (s0 & Hrun & Hb & _ & Hsame & Hlazy).
  exists s0. split; [|split; [exact Hsame|split; [exact Hb|split]]].
  - intros Hboot. destruct (Hlazy Hboot) as (Hrun0 & He & _). now split.
  - intros configs s'. rewrite Hrun. apply all_emitted_in_turn.
  - intros Hret.
    pose proof (all_return group_config (Mix.buildableGroups s) Hret s0) as Hr.
    destruct (Mix.Promise_all_map group_config (Mix.buildableGroups s) s0)
      as [configs s'|e s'] eqn:E; [|discriminate].
    exists configs, s'. split; [now rewrite Hrun|].
    symmetry. eapply Forall2_length. eapply all_emit. exact E.
Qed.

Lemma final_state_bind_ret {A} (m : M A) s :
  final_state (bind m (fun _ => ret tt) s) = final_state (m s).
Proof. unfold bind, ret. now destruct (m s). Qed.

(** C2 (as amended). [init] runs its phase once: when user code leaves
    [Mix.initialized] alone, the flag is set after a first call of
    [init], whether that call returned or threw, and a second call
    changes nothing and raises nothing. [load] and [installDependencies]
    have no such guard: with the mix config in the module cache, every
    call of [load] calls its default export, and every call of
    [installDependencies] fires the dependency-gathering event and hands
    the queue to the installer. *)
Theorem init_runs_once s :
  calls_keep (same initialized) ->
  (let s1 := final_state (Mix.init s) in
   initialized s1 = true /\ Mix.init s1 = Ret tt s1)
  /\ (forall g body f,
        mix_config = Some (body, Some f) ->
        module_cache s = Some None ->
        Mix.currentGroup s = Some g ->
        Mix.load s
        = bind (Mix.BuildGroup_whileCurrent g (call f VUndefined [VApi]))
               (fun _ => ret tt) s)
  /\ (forall g,
        Mix.currentGroup s = Some g ->
        Mix.installDependencies s
        = bind (Mix.BuildGroup_whileCurrent g
                  (Dispatcher.fire ComponentRegistrar.run_listener
                     "internal:gather-dependencies" VUndefined))
               (fun _ => Dependencies_installQueued) s).
Proof.
  intros Hkeep. split; [|split].
  - assert (Hset : initialized (final_state (Mix.init s)) = true).
    { unfold Mix.init, bind at 1, read.
      destruct (initialized s) eqn:Hi; [exact Hi|].
      unfold bind at 1, modify. rewrite final_state_bind_ret.
      apply (stable_dispatch (same initialized)); try easy.
      unfold same. congruence. }
    cbv zeta. split; [exact Hset|].
    unfold Mix.init at 1, bind, read. now rewrite Hset.
  - intros g body f Hconfig Hcache Hcur.
    unfold Mix.load, Mix.import_mix_config. rewrite Hconfig.
    unfold bind at 1, bind at 1, read at 1. rewrite Hcache.
    unfold ret at 1, bind at 1, read. now rewrite Hcur.
  - intros g Hcur. unfold Mix.installDependencies, Mix.dispatch.
    unfold bind at 1, bind at 1, read. rewrite Hcur. reflexivity.
Qed.

End LifecycleFacts.

(** ** The statements at sample inputs *)

Lemma composite_method_steps_witness :
  exists s2,
    @ComponentRegistrar.composite Sample.host "sass" 0 [VStr "src/app.scss"]
      Sample.sass_installed
    = Ret VApi (activate 0 s2).
Proof.
  destruct (@composite_method_steps Sample.host "sass" 0 [VStr "src/app.scss"]
              Sample.sass_installed)
    as (_ & _ & _ & _ & s2 & _ & Hrun & _).
  - intros f _. reflexivity.
  - exists s2. exact Hrun.
Defined.

(** A [register] hook that throws: the exception leaves the composite
    method, the component is recorded and tagged but not activated. *)
Example composite_with_throwing_hook :
  exists s',
    @ComponentRegistrar.composite Sample.throwing_host "broken" 0 [VNum 1]
      (final_state (@ComponentRegistrar.install Sample.throwing_host
                      (ComponentRegistrar.Class Sample.broken) Sample.start))
    = Throw (VError "boom") s'
    /\ recorded s' !! "broken" = Some 0
    /\ Component.caller (objects s' 0) = Some "broken"
    /\ Component.activated (objects s' 0) = false.
Proof. eexists. vm_compute. repeat split. Qed.

Lemma init_runs_once_witness :
  initialized (final_state (@Mix.init Sample.host Sample.sass_in_use)) = true
  /\ @Mix.init Sample.host (final_state (@Mix.init Sample.host Sample.sass_in_use))
     = Ret tt (final_state (@Mix.init Sample.host Sample.sass_in_use)).
Proof.
  refine (proj1 (@init_runs_once Sample.host Sample.sass_in_use _)).
  intros f this args s. reflexivity.
Defined.

(** C2, as stated, fails for [load] and for [installDependencies]: a
    second call runs the configuration callback again (function 101), and
    a second call asks the component for its dependencies again
    (function 2) and calls the installer again. *)
Lemma load_and_installDependencies_run_again :
  let l1 := final_state (@Mix.load Sample.host Sample.start) in
  let l2 := final_state (@Mix.load Sample.host l1) in
  let s1 := final_state (@Mix.installDependencies Sample.host Sample.sass_in_use) in
  let s2 := final_state (@Mix.installDependencies Sample.host s1) in
  (returns (@Mix.load Sample.host Sample.start) = true
   /\ returns (@Mix.load Sample.host l1) = true
   /\ effects l2 = effects l1 ++ [Trace 101 VUndefined [VApi]]
   /\ l2 <> l1)
  /\ (returns (@Mix.installDependencies Sample.host Sample.sass_in_use) = true
      /\ returns (@Mix.installDependencies Sample.host s1) = true
      /\ effects s2
         = effects s1 ++ [Trace 2 (VObject 0) []; InstallQueued [(VUndefined, false)]]
      /\ s2 <> s1).
Proof.
  cbv zeta. split.
  - repeat split; try (vm_compute; reflexivity).
    intros E. apply (f_equal effects) in E. vm_compute in E. discriminate.
  - repeat split; try (vm_compute; reflexivity).
    intros E. apply (f_equal effects) in E. vm_compute in E. discriminate.
Qed.

Lemma alias_last_write_wins_witness :
  let s1 := final_state
              (@ComponentRegistrar.install Sample.host
                 (ComponentRegistrar.Class Sample.sass) Sample.start) in
  let s2 := final_state
              (@ComponentRegistrar.install Sample.host
                 (ComponentRegistrar.Class Sample.fast_sass) s1) in
  api s1 !! "sass" = Some (Composite "sass" 0)
  /\ api s2 !! "sass" = Some (Composite "sass" 1).
Proof.
  cbv zeta.
  destruct (@alias_last_write_wins Sample.host
              (ComponentRegistrar.Class Sample.sass)
              (ComponentRegistrar.Class Sample.fast_sass) "sass" Sample.start
              VApi
              (final_state (@ComponentRegistrar.install Sample.host
                              (ComponentRegistrar.Class Sample.sass) Sample.start))
              VApi
              (final_state
                 (@ComponentRegistrar.install Sample.host
                    (ComponentRegistrar.Class Sample.fast_sass)
                    (final_state (@ComponentRegistrar.install Sample.host
                                    (ComponentRegistrar.Class Sample.sass)
                                    Sample.start)))))
    as (Hfirst & _ & Hsecond & _).
  - intros f this args s. split; [reflexivity|]. intros i. reflexivity.
  - vm_compute. reflexivity.
  - vm_compute. reflexivity.
  - vm_compute. discriminate.
  - vm_compute. apply list_elem_of_here.
  - vm_compute. apply list_elem_of_here.
  - split.
    + apply Hfirst. vm_compute. apply not_elem_of_nil.
    + apply Hsecond. vm_compute. apply not_elem_of_nil.
Defined.

(** [plain_extend] and then [extend] are installed, both answering to
    [extend]; the [mix()] of [extend] has a method of that name. Invoking
    [extend] afterwards calls that method (function 21), not the
    [register] hook of the second component (function 20); the second
    component is not recorded under the alias and is not activated. *)
Lemma alias_bound_to_mix_method :
  let s1 := final_state
              (@ComponentRegistrar.install Sample.host
                 (ComponentRegistrar.Class Sample.plain_extend) Sample.start) in
  let s2 := final_state
              (@ComponentRegistrar.install Sample.host
                 (ComponentRegistrar.Class Sample.extend) s1) in
  let s3 := final_state
              (@ComponentRegistrar.invoke Sample.host "extend" [VStr "x"] s2) in
  @ComponentRegistrar.install Sample.host
    (ComponentRegistrar.Class Sample.plain_extend) Sample.start = Ret VApi s1
  /\ @ComponentRegistrar.install Sample.host
       (ComponentRegistrar.Class Sample.extend) s1 = Ret VApi s2
  /\ ComponentRegistrar.names Sample.plain_extend = ["extend"]
  /\ ComponentRegistrar.names Sample.extend = ["extend"]
  /\ api s1 !! "extend" = Some (Composite "extend" 0)
  /\ api s2 !! "extend" = Some (Direct 21)
  /\ Component.register (objects s2 1) = Some 20
  /\ @ComponentRegistrar.invoke Sample.host "extend" [VStr "x"] s2 = Ret VUndefined s3
  /\ effects s2 = []
  /\ effects s3 = [Trace 21 VApi [VStr "x"]]
  /\ recorded s3 !! "extend" = None
  /\ Component.activated (objects s3 1) = false.
Proof. cbv zeta. repeat apply conj; vm_compute; reflexivity. Qed.

Lemma activation_on_install_witness :
  Component.activated
    (objects (final_state (@ComponentRegistrar.install Sample.host
                             (ComponentRegistrar.Class Sample.notifications)
                             Sample.start)) 0) = true
  /\ exists s',
       @ComponentRegistrar.install Sample.host (ComponentRegistrar.Class Sample.sass)
         Sample.start = Ret VApi s'
       /\ Component.activated (objects s' 0) = false.
Proof.
  split.
  - destruct (@activation_on_install Sample.host
                (ComponentRegistrar.Class Sample.notifications) Sample.start)
      as [Hpassive _].
    + vm_compute. discriminate.
    + destruct (Hpassive eq_refl) as [Hactivated _].
      apply (Hactivated VApi). vm_compute. reflexivity.
  - destruct (@activation_on_install Sample.host
                (ComponentRegistrar.Class Sample.sass) Sample.start)
      as [_ Hidle].
    + vm_compute. discriminate.
    + destruct (Hidle eq_refl eq_refl) as (s' & Hrun & Hoff & _).
      exists s'. split; assumption.
Defined.

Lemma build_one_config_per_buildable_scope_witness :
  exists configs s',
    @Mix.build Sample.host Sample.two_scopes = Ret configs s'
    /\ Forall2 (@emitted Sample.host) [Sample.group_A] configs
    /\ length configs = 1.
Proof.
  destruct (@build_one_config_per_buildable_scope Sample.host Sample.two_scopes)
    as [_ Hbuild].
  - vm_compute. discriminate.
  - destruct Hbuild as (configs & s' & Hrun & Hemitted & Hlength).
    + intros g s. reflexivity.
    + exists configs, s'. repeat split; assumption.
Defined.

(** The scopes "A" (buildable) and "B" (not buildable), declared in this
    order after the root scope: [build] returns the configuration of "A"
    alone. *)
Example build_two_scopes :
  exists s', @Mix.build Sample.host Sample.two_scopes = Ret [VStr "A"] s'.
Proof. eexists. vm_compute. reflexivity. Qed.

Lemma root_scope_is_permanent_witness :
  Mix.popCurrent Sample.start = Ret tt Sample.start
  /\ Mix.currentGroup (final_state (Mix.popCurrent Sample.start))
     = Some Mix.root_group.
Proof.
  destruct (root_scope_is_permanent Sample.start Mix.root_group) as (Hpop & Hroot & _).
  - reflexivity.
  - split; assumption.
Defined.

Lemma whileCurrent_restores_witness :
  current (final_state
             (Mix.BuildGroup_whileCurrent Sample.group_A
                (@throw unit (VError "rejected")) Sample.start))
  = [Mix.root_group]
  /\ current (final_state
                (Mix.BuildGroup_whileCurrent Sample.group_A (ret 1) Sample.start))
     = [Mix.root_group].
Proof.
  split.
  - destruct (whileCurrent_restores Sample.group_A (@throw unit (VError "rejected"))
                Sample.start) as (_ & Hrestored).
    destruct Hrestored as (Hcurrent & _).
    + vm_compute. discriminate.
    + reflexivity.
    + exact Hcurrent.
  - destruct (whileCurrent_restores Sample.group_A (ret 1) Sample.start)
      as (_ & Hrestored).
    destruct Hrestored as (Hcurrent & _).
    + vm_compute. discriminate.
    + reflexivity.
    + exact Hcurrent.
Defined.

(** With the root scope current, [whileCurrent] makes the scope "A"
    current around a function that pushes the scope "B" and returns. The
    one [popCurrent] that follows removes "B": afterwards "A" is current,
    not the root scope that was current before. *)
Lemma whileCurrent_around_a_push :
  let fn := Mix.pushCurrent Sample.group_B in
  let r := Mix.BuildGroup_whileCurrent Sample.group_A fn Sample.start in
  Mix.currentGroup Sample.start = Some Mix.root_group
  /\ returns r = true
  /\ current (final_state r) = [Mix.root_group; Sample.group_A]
  /\ Mix.currentGroup (final_state r) = Some Sample.group_A
  /\ global_group (final_state r) = Some Sample.group_A
  /\ Mix.currentGroup (final_state r) <> Mix.currentGroup Sample.start.
Proof.
  cbv zeta. repeat apply conj; try (vm_compute; reflexivity).
  vm_compute. discriminate.
Qed.

Lemma build_boots_lazily_witness :
  groups Sample.two_scopes <> []
  /\ exists s0,
       booted s0 = true
       /\ effects s0 = [ConsoleWarn Mix.not_set_up_warning; DotenvConfig]
       /\ forall configs s',
            @Mix.build Sample.host Sample.two_scopes = Ret configs s'
            <-> @emitted_in_turn Sample.host [Sample.group_A] s0 configs s'.
Proof.
  assert (Hgroups : groups Sample.two_scopes <> []) by (vm_compute; discriminate).
  split; [exact Hgroups|].
  destruct (@build_boots_lazily Sample.host Sample.two_scopes Hgroups)
    as (s0 & Hlazy & _ & Hbooted & Hbuild & _).
  exists s0. split; [exact Hbooted|]. split.
  - exact (proj2 (Hlazy eq_refl)).
  - exact Hbuild.
Defined.

(** * Further properties *)

(** ** More on the manifest *)

Lemma startsWith_slash_cons s : startsWith (String "/" s) "/" = true.
Proof. now destruct s. Qed.

Lemma startsWith_slash_inv s :
  startsWith s "/" = true -> exists r, s = String "/" r.
Proof.
  destruct s as [|c r]; [discriminate|]. unfold startsWith. cbn [String.prefix].
  destruct (ascii_dec "/" c) as [<-|]; [eauto|discriminate].
Qed.

Lemma no_backslash_replace s : no_backslash (replace_backslashes s) = true.
Proof.
  induction s as [|c r IH]; [reflexivity|]. cbn [replace_backslashes no_backslash].
  rewrite IH, andb_true_r. destruct (Ascii.eqb c backslash) eqn:E; [reflexivity|].
  now rewrite E.
Qed.

Lemma replace_backslashes_clean s :
  no_backslash s = true -> replace_backslashes s = s.
Proof.
  induction s as [|c r IH]; [reflexivity|]. cbn [replace_backslashes no_backslash].
  intros [Hc Hr]%andb_prop. rewrite (IH Hr).
  now destruct (Ascii.eqb c backslash).
Qed.

Lemma normalizePath_slash P f : startsWith (Manifest.normalizePath P f) "/" = true.
Proof.
  unfold Manifest.normalizePath.
  destruct (startsWith (replace_backslashes _) "/") eqn:E;
    [exact E|apply startsWith_slash_cons].
Qed.

Lemma normalizePath_no_backslash P f :
  no_backslash (Manifest.normalizePath P f) = true.
Proof.
  unfold Manifest.normalizePath.
  destruct (negb (startsWith (replace_backslashes _) "/"));
    [cbn [String.append no_backslash]; cbn|]; apply no_backslash_replace.
Qed.

(** X1. A normalized path starts with a slash and holds no backslash,
    whatever the path and the public path. *)
Theorem normalizePath_shape P f :
  startsWith (Manifest.normalizePath P f) "/" = true
  /\ no_backslash (Manifest.normalizePath P f) = true.
Proof. split; [apply normalizePath_slash|apply normalizePath_no_backslash]. Qed.

(** A path that starts with a slash and holds no backslash is left alone,
    unless the public path is a prefix of it. *)
Lemma normalizePath_clean P n :
  startsWith n "/" = true ->
  no_backslash n = true ->
  startsWith P "/" = false ->
  Manifest.normalizePath P n = n.
Proof.
  intros Hslash Hclean HP. unfold Manifest.normalizePath.
  assert (Hkeep : negb (String.eqb P "") && startsWith n P = false).
  { destruct P as [|c P']; [reflexivity|].
    apply startsWith_slash_inv in Hslash as [r ->].
    destruct (ascii_dec c "/") as [->|Hne].
    - now rewrite startsWith_slash_cons in HP.
    - unfold startsWith. cbn [String.eqb negb andb String.prefix].
      now destruct (ascii_dec c "/"). }
  rewrite Hkeep, (replace_backslashes_clean n Hclean), Hslash. reflexivity.
Qed.

(** X2. Normalizing twice is normalizing once, when the public path does
    not itself start with a slash (the empty one included). *)
Theorem normalizePath_idempotent P f :
  startsWith P "/" = false ->
  Manifest.normalizePath P (Manifest.normalizePath P f) = Manifest.normalizePath P f.
Proof.
  intros HP. apply normalizePath_clean;
    [apply normalizePath_slash|apply normalizePath_no_backslash|exact HP].
Qed.

Lemma normalizePath_idempotent_witness :
  Manifest.normalizePath "public" (Manifest.normalizePath "public" "public\js\app.js")
  = "/js/app.js".
Proof.
  rewrite (normalizePath_idempotent "public" "public\js\app.js"); reflexivity.
Defined.

(** With a public path that starts with a slash, a second normalization
    can strip the public path once more. *)
Example normalizePath_twice_strips_again :
  Manifest.normalizePath "/public" "/public/public/js/app.js" = "/public/js/app.js"
  /\ Manifest.normalizePath "/public" "/public/js/app.js" = "/js/app.js".
Proof. split; reflexivity. Qed.

Lemma prefix_empty s : String.prefix "" s = true.
Proof. now destruct s. Qed.

Lemma startsWith_append k x : startsWith k "/" = true -> startsWith (k +:+ x) "/" = true.
Proof.
  intros [r ->]%startsWith_slash_inv. cbn [String.append]. apply startsWith_slash_cons.
Qed.

Lemma strip_id_slash s : startsWith s "/" = true -> startsWith (strip_id s) "/" = true.
Proof.
  intros [r ->]%startsWith_slash_inv. cbn [strip_id].
  replace (id_suffix_here (String "/" r)) with false by reflexivity.
  apply startsWith_slash_cons.
Qed.

Lemma keys_assign k v m k' :
  k' ∈ map fst (Manifest.assign k v m) <-> k' = k \/ k' ∈ map fst m.
Proof.
  induction m as [|[k0 v0] r IH]; cbn [Manifest.assign map fst].
  - rewrite list_elem_of_singleton, elem_of_nil. tauto.
  - destruct (String.eqb_spec k0 k) as [->|Hne]; cbn [map fst];
      rewrite !elem_of_cons; [tauto|rewrite IH; tauto].
Qed.

Lemma NoDup_assign k v m :
  NoDup (map fst m) -> NoDup (map fst (Manifest.assign k v m)).
Proof.
  induction m as [|[k0 v0] r IH]; cbn [Manifest.assign map fst].
  - intros _. apply NoDup_singleton.
  - intros [Hnot Hr]%NoDup_cons.
    destruct (String.eqb_spec k0 k) as [->|Hne]; cbn [map fst]; apply NoDup_cons.
    + split; assumption.
    + split; [|now apply IH]. rewrite keys_assign. intros [?|?]; [congruence|tauto].
Qed.

Lemma Forall_assign (Q : string * string -> Prop) k v m :
  Q (k, v) -> Forall Q m -> Forall Q (Manifest.assign k v m).
Proof.
  intros Hkv. induction m as [|[k0 v0] r IH]; cbn [Manifest.assign].
  - intros _. now constructor.
  - intros [H0 Hr]%Forall_cons.
    destruct (String.eqb k0 k); constructor; auto.
Qed.

Lemma assign_twice k v v' m :
  Manifest.assign k v (Manifest.assign k v' m) = Manifest.assign k v m.
Proof.
  induction m as [|[k0 v0] r IH]; cbn [Manifest.assign].
  - now rewrite String.eqb_refl.
  - destruct (String.eqb k0 k) eqn:E; cbn [Manifest.assign].
    + now rewrite String.eqb_refl.
    + now rewrite E, IH.
Qed.

Lemma well_formed_assign k v m :
  startsWith k "/" = true -> startsWith v "/" = true ->
  well_formed_manifest m -> well_formed_manifest (Manifest.assign k v m).
Proof.
  intros Hk Hv [Hkeys Hshape]. split.
  - now apply NoDup_assign.
  - now apply Forall_assign.
Qed.

Lemma well_formed_add P f m :
  well_formed_manifest (Manifest.manifest m) ->
  well_formed_manifest (Manifest.manifest (Manifest.add P f m)).
Proof.
  intros Hm. unfold Manifest.add. cbn [Manifest.manifest].
  apply well_formed_assign; [|apply normalizePath_slash|exact Hm].
  apply strip_id_slash, normalizePath_slash.
Qed.

Lemma hash_run P read_file hash20 f m m' :
  Manifest.hash P read_file hash20 f m = inr m' ->
  exists p content,
    PosixPath.join [Some P; Some f] = Some p
    /\ read_file p = Some content
    /\ m' = {| Manifest.manifest :=
                 Manifest.assign (Manifest.normalizePath P f)
                   (Manifest.normalizePath P f +:+ "?id=" +:+ hash20 content)
                   (Manifest.manifest m);
               Manifest.name := Manifest.name m |}.
Proof.
  unfold Manifest.hash, Manifest.File_version.
  destruct (PosixPath.join _) as [p|] eqn:Hp; [|discriminate].
  destruct (read_file p) as [content|] eqn:Hread; [|discriminate].
  intros [= <-]. exists p, content. repeat split; assumption.
Qed.

Lemma well_formed_hash P read_file hash20 f m m' :
  Manifest.hash P read_file hash20 f m = inr m' ->
  well_formed_manifest (Manifest.manifest m) ->
  well_formed_manifest (Manifest.manifest m').
Proof.
  intros (p & content & _ & _ & ->)%hash_run Hm. cbn [Manifest.manifest].
  apply well_formed_assign; [apply normalizePath_slash| |exact Hm].
  apply startsWith_append, normalizePath_slash.
Qed.

(** X3. Whatever calls of [add] and [hash] fill a manifest, starting from
    an empty one, no key occurs twice in it, and every key and every
    served path starts with a slash. *)
Theorem manifest_stays_well_formed P read_file hash20 name ops m :
  manifest_calls P read_file hash20 ops (Manifest.create name) = inr m ->
  well_formed_manifest (Manifest.manifest m).
Proof.
  assert (Hgen : forall m0,
            well_formed_manifest (Manifest.manifest m0) ->
            manifest_calls P read_file hash20 ops m0 = inr m ->
            well_formed_manifest (Manifest.manifest m)).
  { induction ops as [|op rest IH]; intros m0 Hm0; cbn [manifest_calls].
    - now intros [= <-].
    - destruct (manifest_call P read_file hash20 op m0) as [e|m1] eqn:E; [discriminate|].
      apply IH. destruct op as [f|f]; cbn [manifest_call] in E.
      + injection E as <-. now apply well_formed_add.
      + now apply (well_formed_hash P read_file hash20 f m0 m1). }
  apply Hgen. split; [apply NoDup_nil_2|constructor].
Qed.

Lemma manifest_stays_well_formed_witness :
  well_formed_manifest
    (Manifest.manifest
       (Manifest.add "public" "public\css\app.css"
          (Manifest.add "public" "js/app.js" Sample.empty_manifest))).
Proof.
  apply (manifest_stays_well_formed "public" Sample.one_file Sample.constant_hash None
           [Add "js/app.js"; Add "public\css\app.css"]).
  reflexivity.
Defined.

(** X4. [add] writes the entry of one key, the normalized path without
    its id suffix, and [hash] the entry of the normalized path; the
    entries of all other keys stay as they were. *)
Theorem add_and_hash_write_one_key P read_file hash20 f m :
  let n := Manifest.normalizePath P f in
  (Manifest.entry (strip_id n) (Manifest.manifest (Manifest.add P f m)) = Some n
   /\ forall k, k <> strip_id n ->
        Manifest.entry k (Manifest.manifest (Manifest.add P f m))
        = Manifest.entry k (Manifest.manifest m))
  /\ (forall m',
        Manifest.hash P read_file hash20 f m = inr m' ->
        (exists p content,
           PosixPath.join [Some P; Some f] = Some p
           /\ read_file p = Some content
           /\ Manifest.entry n (Manifest.manifest m')
              = Some (n +:+ "?id=" +:+ hash20 content))
        /\ forall k, k <> n ->
             Manifest.entry k (Manifest.manifest m') = Manifest.entry k (Manifest.manifest m)).
Proof.
  intros n. split.
  - unfold Manifest.add. cbn [Manifest.manifest]. fold n. split.
    + apply entry_assign.
    + intros k Hk. now apply entry_assign_other.
  - intros m' (p & content & Hp & Hread & ->)%hash_run. cbn [Manifest.manifest].
    fold n. split.
    + exists p, content. repeat split; try assumption. apply entry_assign.
    + intros k Hk. now apply entry_assign_other.
Qed.

(** X5. Adding a path a second time changes nothing. *)
Theorem add_twice P f m : Manifest.add P f (Manifest.add P f m) = Manifest.add P f m.
Proof.
  unfold Manifest.add. cbn [Manifest.manifest Manifest.name].
  now rewrite assign_twice.
Qed.

Lemma word_chars_no_backslash h : word_chars h = true -> no_backslash h = true.
Proof.
  induction h as [|c r IH]; [reflexivity|]. cbn [word_chars no_backslash].
  intros [Hc Hr]%andb_prop. rewrite (IH Hr), andb_true_r.
  revert Hc. destruct c as [[] [] [] [] [] [] [] []]; vm_compute; congruence.
Qed.

Lemma no_backslash_append a b :
  no_backslash a = true -> no_backslash b = true -> no_backslash (a +:+ b) = true.
Proof.
  intros Ha Hb. induction a as [|c r IH]; [exact Hb|].
  cbn [String.append no_backslash] in *. apply andb_prop in Ha as [Hc Hr].
  now rewrite Hc, IH.
Qed.

Lemma word_run_word_chars h n :
  word_chars h = true -> n <= String.length h -> word_run n h = true.
Proof.
  revert h. induction n as [|n IH]; intros h Hh Hlen; [reflexivity|].
  destruct h as [|c r]; [cbn in Hlen; lia|]. cbn [word_chars word_run String.length] in *.
  apply andb_prop in Hh as [Hc Hr]. rewrite Hc. apply IH; [exact Hr|lia].
Qed.

Lemma substring_from_all s : substring_from (String.length s) s = "".
Proof. induction s as [|c r IH]; [reflexivity|exact IH]. Qed.

Lemma id_suffix_here_versioned h :
  word_run 20 h = true -> id_suffix_here ("?id=" +:+ h) = true.
Proof.
  intros Hh. unfold id_suffix_here, startsWith. cbn [String.append substring_from].
  rewrite Hh, andb_true_r. destruct h; reflexivity.
Qed.

(** The id suffix is stripped from a path that holds no question mark
    before it. *)
Lemma strip_id_versioned k h :
  no_question_mark k = true ->
  word_chars h = true -> String.length h = 20 ->
  strip_id (k +:+ "?id=" +:+ h) = k.
Proof.
  intros Hk Hh Hlen. induction k as [|c r IH].
  - change ("" +:+ "?id=" +:+ h) with ("?id=" +:+ h).
    assert (Hhere : id_suffix_here ("?id=" +:+ h) = true)
      by (apply id_suffix_here_versioned, word_run_word_chars; [exact Hh|lia]).
    cbn [String.append] in *. cbn [strip_id]. rewrite Hhere.
    change (substring_from 24 (String "?" (String "i" (String "d" (String "=" h)))))
      with (substring_from 20 h).
    rewrite <- Hlen. apply substring_from_all.
  - cbn [no_question_mark] in Hk. apply andb_prop in Hk as [Hc Hr].
    specialize (IH Hr). cbn [String.append] in IH |- *. cbn [strip_id].
    unfold id_suffix_here, startsWith. cbn [String.prefix].
    destruct (ascii_dec "?" c) as [<-|_]; [discriminate|].
    cbn [andb]. now rewrite IH.
Qed.

(** X6. After [hash], adding the served path that [hash] recorded, id
    suffix included, leaves the manifest as it is: the suffix is stripped
    to find the key. (The public path does not start with a slash, the
    file name holds no question mark.) *)
Theorem hash_then_add_served P read_file hash20 f m m1 :
  startsWith P "/" = false ->
  no_question_mark f = true ->
  content_hash hash20 ->
  Manifest.hash P read_file hash20 f m = inr m1 ->
  exists served,
    Manifest.entry (Manifest.normalizePath P f) (Manifest.manifest m1) = Some served
    /\ strip_id served = Manifest.normalizePath P f
    /\ Manifest.add P served m1 = m1.
Proof.
  intros HP Hf Hhash (p & content & _ & _ & ->)%hash_run.
  destruct (Hhash content) as [Hlen Hword].
  set (n := Manifest.normalizePath P f).
  assert (Hstrip : strip_id (n +:+ "?id=" +:+ hash20 content) = n)
    by (apply strip_id_versioned;
        [now apply no_question_mark_normalizePath|exact Hword|exact Hlen]).
  assert (Hclean : Manifest.normalizePath P (n +:+ "?id=" +:+ hash20 content)
                   = n +:+ "?id=" +:+ hash20 content).
  { apply normalizePath_clean; [|repeat apply no_backslash_append|exact HP].
    - apply startsWith_append, normalizePath_slash.
    - apply normalizePath_no_backslash.
    - reflexivity.
    - now apply word_chars_no_backslash. }
  exists (n +:+ "?id=" +:+ hash20 content). cbn [Manifest.manifest].
  split; [apply entry_assign|]. split; [exact Hstrip|].
  unfold Manifest.add. cbn [Manifest.manifest Manifest.name].
  now rewrite Hclean, Hstrip, assign_twice.
Qed.

Lemma hash_then_add_served_witness :
  exists m1,
    Manifest.hash "public" (fun _ => Some "body{}") Sample.constant_hash
      "css\app.css" Sample.empty_manifest = inr m1
    /\ Manifest.add "public" "/css/app.css?id=0123456789abcdef0123" m1 = m1.
Proof.
  eexists. split; [reflexivity|].
  edestruct (hash_then_add_served "public" (fun _ => Some "body{}")
               Sample.constant_hash "css\app.css" Sample.empty_manifest)
    as (served & Hentry & _ & Hadd).
  - reflexivity.
  - reflexivity.
  - intros content. split; reflexivity.
  - reflexivity.
  - injection Hentry as <-. exact Hadd.
Defined.

Lemma sort_insert_perm cmp x l : Manifest.sort_insert cmp x l ≡ₚ x :: l.
Proof.
  induction l as [|y r IH]; cbn [Manifest.sort_insert]; [reflexivity|].
  destruct (cmp x.1 y.1 <=? 0)%Z; [reflexivity|].
  rewrite IH. apply Permutation_swap.
Qed.

Lemma sort_entries_perm cmp l : Manifest.sort_entries cmp l ≡ₚ l.
Proof.
  induction l as [|x r IH]; [reflexivity|].
  unfold Manifest.sort_entries in *. cbn [fold_right].
  now rewrite sort_insert_perm, IH.
Qed.

Lemma sort_insert_sorted cmp x l :
  total_comparator cmp ->
  Sorted (fun a b : string * string => (cmp a.1 b.1 <= 0)%Z) l ->
  Sorted (fun a b : string * string => (cmp a.1 b.1 <= 0)%Z)
         (Manifest.sort_insert cmp x l).
Proof.
  intros Htotal. induction l as [|y r IH]; cbn [Manifest.sort_insert].
  - intros _. repeat constructor.
  - intros Hsorted. destruct (Z.leb_spec (cmp x.1 y.1) 0) as [Hle|Hgt].
    + constructor; [exact Hsorted|]. now constructor.
    + apply Sorted_inv in Hsorted as [Hr Hhd]. constructor; [now apply IH|].
      assert (Hyx : (cmp y.1 x.1 <= 0)%Z) by (destruct (Htotal x.1 y.1); [lia|assumption]).
      destruct r as [|z r']; cbn [Manifest.sort_insert]; [now constructor|].
      destruct (cmp x.1 z.1 <=? 0)%Z; constructor; [exact Hyx|].
      now apply HdRel_inv in Hhd.
Qed.

Lemma sort_entries_sorted cmp l :
  total_comparator cmp ->
  Sorted (fun a b : string * string => (cmp a.1 b.1 <= 0)%Z)
         (Manifest.sort_entries cmp l).
Proof.
  intros Htotal. induction l as [|x r IH]; [constructor|].
  unfold Manifest.sort_entries in *. cbn [fold_right].
  now apply sort_insert_sorted.
Qed.

(** X7. Without a file, or with the empty string, [get] returns the
    entries of the manifest, each of them once, in ascending order of
    their keys for the comparator (which is taken to order any two
    keys). *)
Theorem get_all_is_sorted P cmp m :
  total_comparator cmp ->
  exists entries,
    Manifest.get P cmp None m = inr (Manifest.Entries entries)
    /\ Manifest.get P cmp (Some "") m = inr (Manifest.Entries entries)
    /\ entries ≡ₚ Manifest.manifest m
    /\ Sorted (fun a b : string * string => (cmp a.1 b.1 <= 0)%Z) entries.
Proof.
  intros Htotal. exists (Manifest.sort_entries cmp (Manifest.manifest m)).
  repeat split; [apply sort_entries_perm|now apply sort_entries_sorted].
Qed.

Lemma byte_compare_total : total_comparator Sample.byte_compare.
Proof.
  intros a b. unfold Sample.byte_compare.
  rewrite (String.compare_antisym b a).
  destruct (String.compare a b); cbn; lia.
Qed.

Lemma get_all_is_sorted_witness :
  exists entries,
    Manifest.get "" Sample.byte_compare None
      (Manifest.add "" "/js/app.js" (Manifest.add "" "/css/app.css" Sample.empty_manifest))
    = inr (Manifest.Entries entries)
    /\ entries ≡ₚ [("/css/app.css", "/css/app.css"); ("/js/app.js", "/js/app.js")].
Proof.
  destruct (get_all_is_sorted "" Sample.byte_compare
              (Manifest.add "" "/js/app.js"
                 (Manifest.add "" "/css/app.css" Sample.empty_manifest))
              byte_compare_total) as (entries & Hget & _ & Hperm & _).
  exists entries. split; [exact Hget|exact Hperm].
Defined.

(** Keys added out of order come back in order. *)
Example get_all_sorts :
  Manifest.get "" Sample.byte_compare None
    (Manifest.add "" "/css/app.css" (Manifest.add "" "/js/app.js" Sample.empty_manifest))
  = inr (Manifest.Entries [("/css/app.css", "/css/app.css"); ("/js/app.js", "/js/app.js")]).
Proof. reflexivity. Qed.

(** X8. A path that was added can be looked up: for a non-empty path
    without a question mark, [get] after [add] serves the POSIX join of
    the public path and the normalized path. *)
Theorem get_after_add_any P cmp f m :
  f <> "" ->
  no_question_mark f = true ->
  exists p,
    PosixPath.join [Some P; Some (Manifest.normalizePath P f)] = Some p
    /\ Manifest.get P cmp (Some f) (Manifest.add P f m) = inr (Manifest.Served p).
Proof.
  intros Hne Hf. destruct (join_two P (Manifest.normalizePath P f)) as [p Hp].
  exists p. split; [exact Hp|].
  unfold Manifest.get, Manifest.add. cbn [Manifest.manifest].
  destruct (String.eqb_spec f ""); [contradiction|].
  rewrite strip_id_unchanged by (now apply no_question_mark_normalizePath).
  now rewrite entry_assign, Hp.
Qed.

Lemma get_after_add_any_witness :
  Manifest.get "public" Sample.byte_compare (Some "public\img\logo.png")
    (Manifest.add "public" "public\img\logo.png" Sample.empty_manifest)
  = inr (Manifest.Served "public/img/logo.png").
Proof.
  destruct (get_after_add_any "public" Sample.byte_compare "public\img\logo.png"
              Sample.empty_manifest) as (p & Hp & Hget).
  - discriminate.
  - reflexivity.
  - rewrite Hget. f_equal. f_equal. now injection Hp as <-.
Defined.

(** A path added with its id suffix is filed under the key without the
    suffix: looking it up with the suffix fails. *)
Example get_of_versioned_path :
  Manifest.get "" Sample.byte_compare (Some "/js/app.js?id=0123456789abcdef0123")
    (Manifest.add "" "/js/app.js?id=0123456789abcdef0123" Sample.empty_manifest)
  = inl Manifest.TypeError_path_undefined
  /\ Manifest.get "" Sample.byte_compare (Some "/js/app.js")
       (Manifest.add "" "/js/app.js?id=0123456789abcdef0123" Sample.empty_manifest)
     = inr (Manifest.Served "/js/app.js?id=0123456789abcdef0123").
Proof. split; reflexivity. Qed.

(** ** Assets of a build *)

Lemma flattenAssets_kept stats asset :
  asset ∈ Manifest.flattenAssets stats <-> kept_asset stats asset.
Proof.
  unfold Manifest.flattenAssets, kept_asset.
  rewrite list_elem_of_filter, list_elem_of_In, in_concat.
  assert (Hhot : Is_true (negb (includes asset "hot-update"))
                 <-> includes asset "hot-update" = false)
    by (destruct (includes asset "hot-update"); cbn; intuition congruence).
  rewrite Hhot. apply and_iff_compat_l. split.
  - intros (l & Hl & Hin). apply in_map_iff in Hl as ([chunk v] & <- & Hchunk).
    apply in_map_iff in Hchunk as ([chunk0 v0] & Heq & Hstats).
    exists chunk0, v0. split; [now apply list_elem_of_In|].
    cbn [fst snd] in Heq.
    destruct (String.eqb_spec chunk0 "mix") as [->|Hne]; cbn [andb] in Heq.
    + destruct (Manifest.chunk_truthy v0) eqn:Htruthy.
      * injection Heq as <- <-. cbn [snd Manifest.asset_list] in Hin.
        apply list_elem_of_In, list_elem_of_filter in Hin as [Hnot Hin].
        split; [exact Hin|]. intros (_ & _ & ->). now cbn in Hnot.
      * injection Heq as <- <-. split; [now apply list_elem_of_In|].
        intros (_ & ? & _). congruence.
    + injection Heq as <- <-. split; [now apply list_elem_of_In|].
      intros (? & _). congruence.
  - intros (chunk & v & Hstats & Hin & Hnot).
    destruct (String.eqb chunk "mix" && Manifest.chunk_truthy v) eqn:Hmix.
    + exists (filter (fun a => negb (String.eqb a "mix.js")) (Manifest.asset_list v)).
      split.
      * apply in_map_iff.
        exists (chunk, Manifest.ManyAssets
                         (filter (fun a => negb (String.eqb a "mix.js"))
                            (Manifest.asset_list v))).
        split; [reflexivity|]. apply in_map_iff. exists (chunk, v).
        split; [|now apply list_elem_of_In]. cbn [fst snd]. now rewrite Hmix.
      * apply list_elem_of_In, list_elem_of_filter. split; [|exact Hin].
        destruct (String.eqb_spec asset "mix.js") as [->|]; [|exact I].
        apply andb_prop in Hmix as [Hchunk Htruthy].
        apply String.eqb_eq in Hchunk. exfalso. now apply Hnot.
    + exists (Manifest.asset_list v). split; [|now apply list_elem_of_In].
      apply in_map_iff. exists (chunk, v). split; [reflexivity|].
      apply in_map_iff. exists (chunk, v).
      split; [|now apply list_elem_of_In]. cbn [fst snd]. now rewrite Hmix.
Qed.

Lemma add_keeps_entry P f m k :
  is_Some (Manifest.entry k (Manifest.manifest m)) ->
  is_Some (Manifest.entry k (Manifest.manifest (Manifest.add P f m))).
Proof.
  intros Hsome. unfold Manifest.add. cbn [Manifest.manifest].
  destruct (String.eqb_spec k (strip_id (Manifest.normalizePath P f))) as [->|Hne].
  - rewrite entry_assign. eauto.
  - now rewrite entry_assign_other.
Qed.

Lemma fold_add_keeps_entry P assets : forall m k,
  is_Some (Manifest.entry k (Manifest.manifest m)) ->
  is_Some (Manifest.entry k
             (Manifest.manifest (fold_left (fun acc a => Manifest.add P a acc) assets m))).
Proof.
  induction assets as [|a r IH]; intros m k Hsome; [exact Hsome|].
  cbn [fold_left]. now apply IH, add_keeps_entry.
Qed.

Lemma fold_add_entries P assets : forall m,
  (forall a, a ∈ assets ->
     is_Some (Manifest.entry (strip_id (Manifest.normalizePath P a))
                (Manifest.manifest (fold_left (fun acc a => Manifest.add P a acc) assets m))))
  /\ (forall k,
        (forall a, a ∈ assets -> strip_id (Manifest.normalizePath P a) <> k) ->
        Manifest.entry k
          (Manifest.manifest (fold_left (fun acc a => Manifest.add P a acc) assets m))
        = Manifest.entry k (Manifest.manifest m))
  /\ (well_formed_manifest (Manifest.manifest m) ->
      well_formed_manifest
        (Manifest.manifest (fold_left (fun acc a => Manifest.add P a acc) assets m))).
Proof.
  induction assets as [|a r IH]; intros m.
  - split; [|split]; [|reflexivity|trivial]. intros a Ha. now apply elem_of_nil in Ha.
  - cbn [fold_left]. destruct (IH (Manifest.add P a m)) as (Hsome & Hother & Hwf).
    split; [|split].
    + intros b [->|Hb]%elem_of_cons; [|now apply Hsome].
      apply fold_add_keeps_entry. unfold Manifest.add. cbn [Manifest.manifest].
      rewrite entry_assign. eauto.
    + intros k Hk. rewrite Hother by (intros b Hb; apply Hk; now right).
      unfold Manifest.add. cbn [Manifest.manifest].
      apply entry_assign_other. intros ->. apply (Hk a); [now left|reflexivity].
    + intros Hm. now apply Hwf, well_formed_add.
Qed.

(** X9. [transform] adds the assets of the chunks, leaving out the hot
    updates and the [mix.js] of the chunk [mix]: every asset it keeps has
    an entry afterwards, the entries under keys that no kept asset writes
    stay as they were, and a well-formed manifest stays well formed. *)
Theorem transform_adds_kept_assets P stats m :
  (forall asset, asset ∈ Manifest.flattenAssets stats <-> kept_asset stats asset)
  /\ (forall asset,
        kept_asset stats asset ->
        is_Some (Manifest.entry (strip_id (Manifest.normalizePath P asset))
                   (Manifest.manifest (Manifest.transform P stats m))))
  /\ (forall k,
        (forall asset, kept_asset stats asset ->
                       strip_id (Manifest.normalizePath P asset) <> k) ->
        Manifest.entry k (Manifest.manifest (Manifest.transform P stats m))
        = Manifest.entry k (Manifest.manifest m))
  /\ (well_formed_manifest (Manifest.manifest m) ->
      well_formed_manifest (Manifest.manifest (Manifest.transform P stats m))).
Proof.
  unfold Manifest.transform.
  destruct (fold_add_entries P (Manifest.flattenAssets stats) m) as (Hsome & Hother & Hwf).
  split; [apply flattenAssets_kept|]. split; [|split; [|exact Hwf]].
  - intros asset Hkept. now apply Hsome, flattenAssets_kept.
  - intros k Hk. apply Hother. intros a Ha. now apply Hk, flattenAssets_kept.
Qed.

(** The stats of a build in hot mode with a temporary [mix.js]. *)
Example transform_sample :
  Manifest.flattenAssets
    [("/js/app", Manifest.ManyAssets ["/js/app.js"; "/js/app.1a2b.hot-update.js"]);
     ("mix", Manifest.ManyAssets ["mix.js"; "/css/app.css"]);
     ("/js/vendor", Manifest.OneAsset "/js/vendor.js")]
  = ["/js/app.js"; "/css/app.css"; "/js/vendor.js"].
Proof. reflexivity. Qed.

(** ** More on the stack of current build groups *)

Lemma forEach_app {A} (f : A -> M unit) l1 l2 s :
  forEach f (l1 ++ l2) s = bind (forEach f l1) (fun _ => forEach f l2) s.
Proof.
  revert s. induction l1 as [|x r IH]; intros s; [reflexivity|].
  cbn [app forEach]. unfold bind in *. destruct (f x s); [apply IH|reflexivity].
Qed.

(** One pop: a level is removed, unless only one is left. *)
Lemma popCurrent_depth s :
  current s <> [] ->
  exists s',
    Mix.popCurrent s = Ret tt s'
    /\ current s' = take (Nat.max 1 (length (current s) - 1)) (current s)
    /\ (2 <= length (current s) -> global_group s' = Mix.currentGroup s').
Proof.
  intros Hne. destruct (exists_last Hne) as [l [top Htop]].
  destruct l as [|x l0] using rev_ind.
  - exists s. rewrite popCurrent_at_root by (now rewrite Htop).
    rewrite Htop. cbn. split; [reflexivity|]. split; [reflexivity|lia].
  - clear IHl0. rewrite <- app_assoc in Htop. cbn [app] in Htop.
    rewrite (popCurrent_above_root s l0 x top Htop). eexists. split; [reflexivity|].
    cbn [current set_current set_global_group global_group]. rewrite Htop.
    rewrite length_app. cbn [length].
    replace (Nat.max 1 (length l0 + 2 - 1)) with (length (l0 ++ [x]))
      by (rewrite length_app; cbn; lia).
    replace (l0 ++ [x; top]) with ((l0 ++ [x]) ++ [top]) by (now rewrite <- app_assoc).
    rewrite take_app_length. split; [reflexivity|].
    intros _. unfold Mix.currentGroup. cbn [current set_current set_global_group].
    now rewrite last_snoc.
Qed.

Lemma pops_depth n : forall s,
  current s <> [] ->
  exists s',
    forEach run_stack_op (repeat Pop n) s = Ret tt s'
    /\ current s' = take (Nat.max 1 (length (current s) - n)) (current s)
    /\ (1 <= n -> 2 <= length (current s) -> global_group s' = Mix.currentGroup s').
Proof.
  induction n as [|n IH]; intros s Hne.
  - exists s. split; [reflexivity|]. split; [|lia].
    rewrite take_ge; [reflexivity|]. destruct (current s); [contradiction|cbn; lia].
  - destruct (popCurrent_depth s Hne) as (s1 & Hpop & Hcur1 & Hglobal1).
    assert (Hlen1 : length (current s1) = Nat.max 1 (length (current s) - 1)).
    { rewrite Hcur1, length_take. destruct (current s); [contradiction|cbn; lia]. }
    assert (Hne1 : current s1 <> []) by (intros E; rewrite E in Hlen1; cbn in Hlen1; lia).
    destruct (IH s1 Hne1) as (s' & Hrun & Hcur & Hglobal).
    exists s'. cbn [repeat forEach run_stack_op]. unfold bind. rewrite Hpop.
    split; [exact Hrun|]. split.
    + rewrite Hcur, Hlen1, Hcur1, take_take. f_equal. lia.
    + intros _ Hdeep. destruct n as [|n].
      * cbn in Hrun. injection Hrun as <-. now apply Hglobal1.
      * destruct (decide (2 <= length (current s1))) as [Hdeep1|Hflat].
        -- apply Hglobal; [lia|exact Hdeep1].
        -- assert (Hone : length (current s1) = 1) by lia.
           assert (Hsame : forEach run_stack_op (repeat Pop (S n)) s1 = Ret tt s1).
           { clear -Hone. induction (S n) as [|k IHk]; [reflexivity|].
             cbn [repeat forEach run_stack_op]. unfold bind.
             now rewrite (popCurrent_at_root s1 Hone). }
           rewrite Hsame in Hrun. injection Hrun as <-. now apply Hglobal1.
Qed.

(** X10. However many pops are asked for, the stack loses that many
    levels but never its last one: from depth [d], [n] pops leave the
    first [max 1 (d - n)] groups, and all of them return. *)
Theorem pops_stop_at_the_root n s :
  current s <> [] ->
  exists s',
    forEach run_stack_op (repeat Pop n) s = Ret tt s'
    /\ current s' = take (Nat.max 1 (length (current s) - n)) (current s)
    /\ length (current s') = Nat.max 1 (length (current s) - n)
    /\ (1 <= n -> 2 <= length (current s) -> global_group s' = Mix.currentGroup s').
Proof.
  intros Hne. destruct (pops_depth n s Hne) as (s' & Hrun & Hcur & Hglobal).
  exists s'. repeat split; try assumption.
  rewrite Hcur, length_take. destruct (current s); [contradiction|cbn; lia].
Qed.

Lemma pops_stop_at_the_root_witness :
  exists s',
    forEach run_stack_op (repeat Pop 5)
      (final_state (forEach run_stack_op [Push Sample.group_A; Push Sample.group_B]
                      Sample.start))
    = Ret tt s'
    /\ current s' = [Mix.root_group].
Proof.
  destruct (pops_stop_at_the_root 5
              (final_state (forEach run_stack_op [Push Sample.group_A; Push Sample.group_B]
                              Sample.start)))
    as (s' & Hrun & Hcur & _).
  - vm_compute. discriminate.
  - exists s'. split; [exact Hrun|exact Hcur].
Defined.

Lemma pushes_run gs : forall s,
  exists s',
    forEach run_stack_op (map Push gs) s = Ret tt s'
    /\ current s' = current s ++ gs.
Proof.
  induction gs as [|g r IH]; intros s.
  - exists s. split; [reflexivity|now rewrite app_nil_r].
  - cbn [map forEach run_stack_op]. unfold bind. rewrite pushCurrent_run.
    destruct (IH (set_current (current s ++ [g]) (set_global_group (Some g) s)))
      as (s' & Hrun & Hcur).
    exists s'. split; [exact Hrun|]. rewrite Hcur. cbn. now rewrite <- app_assoc.
Qed.

(** X11. As many pops as pushes put the stack back as it was, and the
    group that was current before is published again. *)
Theorem pushes_then_pops_restore gs s :
  current s <> [] ->
  exists s',
    forEach run_stack_op (map Push gs ++ repeat Pop (length gs)) s = Ret tt s'
    /\ current s' = current s
    /\ Mix.currentGroup s' = Mix.currentGroup s
    /\ (gs <> [] -> global_group s' = Mix.currentGroup s).
Proof.
  intros Hne. destruct (pushes_run gs s) as (s1 & Hpush & Hcur1).
  assert (Hne1 : current s1 <> [])
    by (rewrite Hcur1; intros [E _]%app_eq_nil; contradiction).
  destruct (pops_depth (length gs) s1 Hne1) as (s' & Hpop & Hcur & Hglobal).
  assert (Hback : current s' = current s).
  { rewrite Hcur, Hcur1, length_app.
    replace (Nat.max 1 (length (current s) + length gs - length gs))
      with (length (current s)) by (destruct (current s); [contradiction|cbn; lia]).
    apply take_app_length. }
  assert (Htop : Mix.currentGroup s' = Mix.currentGroup s)
    by (unfold Mix.currentGroup; now rewrite Hback).
  exists s'. rewrite forEach_app. unfold bind. rewrite Hpush.
  split; [exact Hpop|]. split; [exact Hback|]. split; [exact Htop|].
  intros Hgs. rewrite <- Htop. apply Hglobal.
  - destruct gs; [contradiction|cbn; lia].
  - rewrite Hcur1, length_app. destruct (current s), gs; try contradiction; cbn; lia.
Qed.

Lemma pushes_then_pops_restore_witness :
  exists s',
    forEach run_stack_op [Push Sample.group_A; Push Sample.group_B; Pop; Pop] Sample.start
    = Ret tt s'
    /\ current s' = [Mix.root_group]
    /\ global_group s' = Some Mix.root_group.
Proof.
  destruct (pushes_then_pops_restore [Sample.group_A; Sample.group_B] Sample.start)
    as (s' & Hrun & Hcur & _ & Hglobal).
  - vm_compute. discriminate.
  - exists s'. split; [exact Hrun|]. split; [exact Hcur|].
    apply Hglobal. discriminate.
Defined.

(** ** More on the lifecycle and on registration *)

Section MoreFacts.
Context `{Host}.

Lemma boot_sets_flag s : booted (final_state (Mix.boot s)) = true.
Proof.
  unfold Mix.boot, bind at 1, read. destruct (booted s) eqn:Hb; [exact Hb|].
  unfold bind, modify, Mix.effect, Mix.listen, Dispatcher.listen, Mix.makeCurrent,
    Mix.BuildGroup_makeCurrent, read, ret, throw.
  destruct (Mix.sees "laravel"); cbn;
    match goal with |- context [hd_error ?l] => destruct l end; reflexivity.
Qed.

(** X12. [boot] does its work once: after any call of [boot] the flag is
    set and a second call changes nothing. The first call, on an instance
    with its groups, loads the environment file once, sets the public
    path to ["public"] when [./artisan] exists and leaves it alone
    otherwise, subscribes the hot-reloading record to [init] once, and
    publishes the first group. *)
Theorem boot_runs_once s :
  (booted (final_state (Mix.boot s)) = true
   /\ Mix.boot (final_state (Mix.boot s)) = Ret tt (final_state (Mix.boot s)))
  /\ (booted s = false -> groups s <> [] ->
      exists s1,
        Mix.boot s = Ret tt s1
        /\ effects s1 = effects s ++ [DotenvConfig]
        /\ events s1 = events s ++ [("init", OnInitHotRecord)]
        /\ publicPath s1 = (if artisan_exists then "public" else publicPath s)
        /\ global_group s1 = head (groups s)
        /\ groups s1 = groups s).
Proof.
  split.
  - split; [apply boot_sets_flag|]. apply boot_again, boot_sets_flag.
  - intros Hb Hg.
    destruct (boot_run s Hb Hg) as (s1 & Hrun & _ & Hgroups & He & Hev & _ & Hgg & Hpp).
    exists s1. repeat split; assumption.
Qed.

Lemma listener_skips_dormant c data s :
  ComponentRegistrar.dormant c s = true ->
  ComponentRegistrar.run_listener (OnGatherDependencies c) data s = Ret VUndefined s
  /\ ComponentRegistrar.run_listener (OnInit c) data s = Ret VUndefined s.
Proof.
  intros Hd. cbn [ComponentRegistrar.run_listener]. unfold bind, read.
  now rewrite Hd.
Qed.

(** X13. A component that is neither passive nor activated costs
    nothing: installing it calls no hook, and afterwards its two standing
    listeners return at once and leave the state untouched, until one of
    its composite methods is invoked. A component without a
    [dependencies] hook is skipped by dependency gathering even when it
    is active. *)
Theorem dormant_component_is_skipped d s :
  Component.passive (component_of d s) = false ->
  Component.activated (component_of d s) = false ->
  (exists s',
     ComponentRegistrar.install d s = Ret VApi s'
     /\ forall data,
          ComponentRegistrar.run_listener (OnGatherDependencies (component_ref d s)) data s'
          = Ret VUndefined s'
          /\ ComponentRegistrar.run_listener (OnInit (component_ref d s)) data s'
             = Ret VUndefined s')
  /\ (forall c data s0,
        Component.dependencies (objects s0 c) = None ->
        ComponentRegistrar.run_listener (OnGatherDependencies c) data s0
        = Ret VUndefined s0).
Proof.
  intros Hidle Hoff. split.
  - rewrite install_run.
    rewrite registerComponent_idle by (now rewrite provisioned_object).
    eexists. split; [reflexivity|]. intros data. apply listener_skips_dormant.
    unfold ComponentRegistrar.dormant. cbn [objects set_events set_api].
    now rewrite provisioned_object, Hidle, Hoff.
  - intros c data s0 Hnone. cbn [ComponentRegistrar.run_listener]. unfold bind, read.
    destruct (ComponentRegistrar.dormant c s0); [reflexivity|]. now rewrite Hnone.
Qed.

Lemma merge_mix_binds methods : forall a k f,
  (k, f) ∈ methods ->
  NoDup (map fst methods) ->
  merge_mix methods a !! k = Some (Direct f).
Proof.
  induction methods as [|[k0 f0] r IH]; intros a k f Hin Hnodup.
  - now apply elem_of_nil in Hin.
  - cbn [map fst] in Hnodup. apply NoDup_cons in Hnodup as [Hfresh Hr].
    cbn [merge_mix fold_left]. fold (merge_mix r (<[k0 := Direct f0]> a)).
    apply elem_of_cons in Hin as [[= -> ->]|Hin].
    + rewrite merge_mix_lookup by exact Hfresh. apply lookup_insert_eq.
    + now apply IH.
Qed.

Lemma registered_api_mix c methods names a k f :
  names <> [] ->
  (k, f) ∈ methods ->
  NoDup (map fst methods) ->
  registered_api c methods names a !! k = Some (Direct f).
Proof.
  intros Hnames Hin Hnodup. destruct (exists_last Hnames) as [init [n ->]].
  unfold registered_api. rewrite fold_left_app. cbn [fold_left].
  now apply merge_mix_binds.
Qed.

(** X14. The methods that a component contributes through [mix()] are
    bound under their own names when [install] returns, also where one of
    them has the name of an alias of the component: the method replaces
    the composite method. (The component has an alias, [mix()] names no
    method twice, and user code leaves the API surface and the [mix]
    accessors alone.) *)
Theorem mix_methods_win d s v s' k f :
  calls_keep api_and_mix_kept ->
  ComponentRegistrar.install d s = Ret v s' ->
  ComponentRegistrar.names (component_of d s) <> [] ->
  NoDup (mix_keys (component_of d s)) ->
  (k, f) ∈ mix_methods (component_of d s) ->
  api s' !! k = Some (Direct f)
  /\ forall args, ComponentRegistrar.invoke k args s' = call f VApi args s'.
Proof.
  intros Hkeep Hinstall Hnames Hnodup Hin.
  assert (Hbound : api s' !! k = Some (Direct f)).
  { rewrite (install_api d s v s' Hkeep Hinstall).
    now apply registered_api_mix. }
  split; [exact Hbound|]. intros args.
  unfold ComponentRegistrar.invoke, bind, read. now rewrite Hbound.
Qed.

End MoreFacts.

Lemma mix_methods_win_witness :
  api (final_state (@ComponentRegistrar.install Sample.host
                      (ComponentRegistrar.Class Sample.extend) Sample.start))
    !! "extend"
  = Some (Direct 21).
Proof.
  refine (proj1 (@mix_methods_win Sample.host (ComponentRegistrar.Class Sample.extend)
                   Sample.start VApi _ "extend" 21 _ _ _ _ _)).
  - intros f this args s. split; [reflexivity|]. intros i. reflexivity.
  - vm_compute. reflexivity.
  - vm_compute. discriminate.
  - apply (bool_decide_unpack _). vm_compute. exact I.
  - vm_compute. repeat constructor.
Defined.

Lemma dormant_component_is_skipped_witness :
  exists s',
    @ComponentRegistrar.install Sample.host (ComponentRegistrar.Class Sample.sass)
      Sample.start = Ret VApi s'
    /\ @ComponentRegistrar.run_listener Sample.host (OnInit 0) VMix s' = Ret VUndefined s'.
Proof.
  destruct (@dormant_component_is_skipped Sample.host
              (ComponentRegistrar.Class Sample.sass) Sample.start)
    as [(s' & Hrun & Hskip) _].
  - reflexivity.
  - reflexivity.
  - exists s'. split; [exact Hrun|]. apply Hskip.
Defined.

Section ListenerFacts.
Context `{Host}.

Lemma push_new_run r v s :
  exists s',
    ComponentRegistrar.push_new (VArray r) v s = Ret tt s'
    /\ arrays s' r
       = arrays s r ++ (if truthy v then ComponentRegistrar.concat_value v s else [])
    /\ forall i, i <> r -> arrays s' i = arrays s i.
Proof.
  unfold ComponentRegistrar.push_new. destruct (truthy v).
  - eexists. split; [reflexivity|]. cbn [arrays set_arrays]. split.
    + now rewrite Nat.eqb_refl.
    + intros i Hi. now destruct (Nat.eqb_spec i r).
  - exists s. split; [reflexivity|]. split; [now rewrite app_nil_r|reflexivity].
Qed.

(** X16. The listeners for the module rules and for the plugins call
    the component's hook, without arguments, and only ever append to the
    array they are given: the content of that array as the hook left it
    is still there, in order, followed by what the hook returned (nothing
    for a falsy result, the items of an array, or the one value); the
    other arrays are as the hook left them. When the hook throws, the
    listener throws the same and nothing is appended; without the hook
    nothing changes. *)
Theorem contributions_are_appended c r s h hook :
  (h = OnLoadingRules c /\ hook = Component.webpackRules (objects s c))
  \/ (h = OnLoadingPlugins c /\ hook = Component.webpackPlugins (objects s c)) ->
  (hook = None ->
   ComponentRegistrar.run_listener h (VArray r) s = Ret VUndefined s)
  /\ (forall f e s1,
        hook = Some f ->
        call f (VObject c) [] s = Throw e s1 ->
        ComponentRegistrar.run_listener h (VArray r) s = Throw e s1)
  /\ (forall f contribution s1,
        hook = Some f ->
        call f (VObject c) [] s = Ret contribution s1 ->
        exists s',
          ComponentRegistrar.run_listener h (VArray r) s = Ret VUndefined s'
          /\ arrays s' r
             = arrays s1 r ++ (if truthy contribution
                               then ComponentRegistrar.concat_value contribution s1
                               else [])
          /\ forall i, i <> r -> arrays s' i = arrays s1 i).
Proof.
  intros Hh.
  assert (Hrun : ComponentRegistrar.run_listener h (VArray r) s
                 = match hook with
                   | Some f =>
                       bind (bind (call f (VObject c) []) (fun items =>
                                     ComponentRegistrar.push_new (VArray r) items))
                            (fun _ => ret VUndefined) s
                   | None => Ret VUndefined s
                   end).
  { destruct Hh as [[-> ->]|[-> ->]]; cbn [ComponentRegistrar.run_listener];
      unfold bind at 1, read.
    - now destruct (Component.webpackRules (objects s c)).
    - now destruct (Component.webpackPlugins (objects s c)). }
  rewrite Hrun. split; [|split].
  - now intros ->.
  - intros f e s1 -> Hcall. unfold bind. now rewrite Hcall.
  - intros f contribution s1 -> Hcall. unfold bind, ret. rewrite Hcall.
    destruct (push_new_run r contribution s1) as (s2 & Hpush & Hr & Hother).
    rewrite Hpush. exists s2. split; [reflexivity|]. split; assumption.
Qed.



End ListenerFacts.



Lemma contributions_are_appended_witness :
  exists s',
    @ComponentRegistrar.run_listener Sample.contributing_host (OnLoadingRules 0)
      (VArray 3) Sample.with_rules = Ret VUndefined s'
    /\ arrays s' 3 = [VStr "babel-rule"; VStr "sass-rule"]
    /\ arrays s' 4 = [].
Proof.
  destruct (@contributions_are_appended Sample.contributing_host 0 3
              Sample.with_rules (OnLoadingRules 0) (Some 3))
    as (_ & _ & Happended).
  - left. split; reflexivity.
  - destruct (Happended 3 (VStr "sass-rule")
                (final_state (@call Sample.contributing_host 3 (VObject 0) []
                                Sample.with_rules)))
      as (s' & Hrun & Hrules & Hother).
    + reflexivity.
    + reflexivity.
    + exists s'. split; [exact Hrun|]. split; [exact Hrules|].
      apply (Hother 4). discriminate.
Defined.
